(** * Tocsic: a shallow embedding of src/src/tocsic.py

    Lines are modelled as [string]s over Rocq's 8-bit [ascii], read as the
    Latin-1 code points U+0000..U+00FF; the character classes below follow
    Python's [str.isspace], [str.isalnum], [str.lower] and the [re] classes
    [\s], [\S], [\w] on exactly those code points.  A file is the list of
    lines that iterating over it yields (each keeps its trailing newline). *)

From Stdlib Require Import Ascii.
From stdpp Require Import base gmap strings list pretty.

Open Scope string_scope.

(** stdpp makes [String.append] opaque to [simpl]; the proofs below
    compute with it. *)
#[local] Arguments String.append : simpl nomatch.

(** ** Characters *)

Definition newline : ascii := "010"%char.
Definition dquote : ascii := "034"%char.

(** [str.isspace] (and the [re] class [\s]) on Latin-1. *)
Definition is_space (c : ascii) : bool :=
  let n := nat_of_ascii c in
  (((9 <=? n) && (n <=? 13)) || ((28 <=? n) && (n <=? 32)) ||
  (n =? 133) || (n =? 160))%nat.

(** [str.isalnum] on Latin-1. *)
Definition isalnum (c : ascii) : bool :=
  let n := nat_of_ascii c in
  (((48 <=? n) && (n <=? 57)) || ((65 <=? n) && (n <=? 90)) ||
  ((97 <=? n) && (n <=? 122)) ||
  (n =? 170) || (n =? 178) || (n =? 179) || (n =? 181) || (n =? 185) ||
  (n =? 186) || (n =? 188) || (n =? 189) || (n =? 190) ||
  ((192 <=? n) && (n <=? 214)) || ((216 <=? n) && (n <=? 246)) ||
  ((248 <=? n) && (n <=? 255)))%nat.

(** [str.lower] on one Latin-1 character. *)
Definition lower_char (c : ascii) : ascii :=
  let n := nat_of_ascii c in
  if (((65 <=? n) && (n <=? 90)) || ((192 <=? n) && (n <=? 222) && negb (n =? 215)))%nat
  then ascii_of_nat (n + 32) else c.

(** The [re] class [\w]: alphanumeric characters and the underscore. *)
Definition is_word (c : ascii) : bool := isalnum c || Ascii.eqb c "_".

(** ** Python string helpers *)

Fixpoint smap (f : ascii -> ascii) (s : string) : string :=
  match s with
  | EmptyString => EmptyString
  | String c s' => String (f c) (smap f s')
  end.

Fixpoint sfilter (p : ascii -> bool) (s : string) : string :=
  match s with
  | EmptyString => EmptyString
  | String c s' => if p c then String c (sfilter p s') else sfilter p s'
  end.

Fixpoint srev (s : string) : string :=
  match s with
  | EmptyString => EmptyString
  | String c s' => srev s' +:+ String c EmptyString
  end.

Fixpoint lstrip_by (p : ascii -> bool) (s : string) : string :=
  match s with
  | EmptyString => EmptyString
  | String c s' => if p c then lstrip_by p s' else s
  end.

Definition strip_by (p : ascii -> bool) (s : string) : string :=
  srev (lstrip_by p (srev (lstrip_by p s))).

(** [str.lower()], [str.strip()] and [str.strip('_')]. *)
Definition lower (s : string) : string := smap lower_char s.
Definition strip (s : string) : string := strip_by is_space s.
Definition strip_underscore (s : string) : string := strip_by (fun c => Ascii.eqb c "_") s.

(** [str.startswith(p)]. *)
Definition startswith (s p : string) : bool := String.prefix p s.

(** [str(n)] for a non-negative integer. *)
Definition str_nat (n : nat) : string := pretty n.

(** ** The header pattern of [Tocsic.head_regex], searched with [re.search]

    The pattern is: group 1 [#+], then [\s*], then group 2: [\S+] followed
    by any number of [\s+\S+].

    At a position holding ['#'], the greedy [#+] takes the whole run of
    [k] hashes and [\s*] the whitespace after it; group 2 then spans from
    the first to the last non-blank character of the rest of the line.
    When the rest is blank, backtracking gives the last hash to group 2
    (group 1 keeps [k - 1] hashes), which needs [k >= 2].  The result is
    [(len(group 1), group 2)]. *)

Fixpoint split_hashes (s : string) : nat * string :=
  match s with
  | String c s' => if Ascii.eqb c "#" then let '(k, r) := split_hashes s' in (S k, r) else (0, s)
  | EmptyString => (0, s)
  end.

Definition head_match_at (s : string) : option (nat * string) :=
  let '(k, rest) := split_hashes s in
  if negb (String.eqb (strip rest) "") then Some (k, strip rest)
  else if (2 <=? k)%nat then Some (k - 1, "#")
  else None.

Fixpoint head_search (s : string) : option (nat * string) :=
  match s with
  | EmptyString => None
  | String c s' => if Ascii.eqb c "#" then head_match_at s else head_search s'
  end.

(** ** The anchor-tag pattern [\s*<a +id="([\w-]+)"></a>], searched

    The leading [\s*] never changes group 1, so the search returns the
    group of the leftmost ["<a"] from which the rest of the pattern
    matches.  [[\w-]+] is greedy and cannot match the closing quote, so
    taking the maximal run is exact. *)

Definition is_word_or_dash (c : ascii) : bool := is_word c || Ascii.eqb c "-".

Fixpoint span (p : ascii -> bool) (s : string) : string * string :=
  match s with
  | String c s' => if p c then let '(w, r) := span p s' in (String c w, r) else (EmptyString, s)
  | EmptyString => (EmptyString, EmptyString)
  end.

Definition tag_close : string := String dquote "></a>".

Definition keyword_match_at (s : string) : option string :=
  match s with
  | String "<" (String "a" (String " " s1)) =>
      match lstrip_by (fun c => Ascii.eqb c " ") s1 with
      | String "i" (String "d" (String "=" (String q s3))) =>
          if Ascii.eqb q dquote then
            let '(w, s4) := span is_word_or_dash s3 in
            if negb (String.eqb w "") && String.prefix tag_close s4 then Some w else None
          else None
      | _ => None
      end
  | _ => None
  end.

Fixpoint keyword_search (s : string) : option string :=
  match s with
  | EmptyString => None
  | String _ s' =>
      match keyword_match_at s with
      | Some w => Some w
      | None => keyword_search s'
      end
  end.

(** ** [Tocsic.header_to_link]

    [to_underscore_regex] is [[ -/]+]: a character class holding the
    range from ' ' (32) to '/' (47).  [re.sub] replaces every maximal run
    of such characters by one underscore. *)

Definition in_to_underscore (c : ascii) : bool :=
  ((32 <=? nat_of_ascii c) && (nat_of_ascii c <=? 47))%nat.

(** [re.sub(r'[p]+', '_', s)] for a character class [p]; [in_run] tells
    whether the previous character was already replaced. *)
Fixpoint sub_runs (p : ascii -> bool) (in_run : bool) (s : string) : string :=
  match s with
  | EmptyString => EmptyString
  | String c s' =>
      if p c then
        if in_run then sub_runs p true s' else String "_" (sub_runs p true s')
      else String c (sub_runs p false s')
  end.

Definition link_candidate (header : string) : string :=
  let link := strip_underscore (sub_runs in_to_underscore false (lower header)) in
  sfilter is_word link.

Definition header_to_link (header_dict : gmap string nat) (header : string)
    : gmap string nat * string :=
  let link := link_candidate header in
  let header_cnt := default 0 (header_dict !! link) in
  if (header_cnt =? 0)%nat then (<[link := 1]> header_dict, link)
  else (<[link := header_cnt + 1]> header_dict, link +:+ "_" +:+ str_nat header_cnt).

(** ** Instance state of [Tocsic] used by the scan

    [body] is the list of pieces appended to [self.body], in order:
    [self.body] is their concatenation.  [diagnostics] collects what the
    scan prints. *)

Record toc_entry := mkEntry {
  level : nat;
  header_name : string;
  link : string
}.

Record Tocsic := mkTocsic {
  toc_info : list toc_entry;
  body : list string;
  header_dict : gmap string nat;
  diagnostics : list string
}.

Definition init_tocsic : Tocsic := mkTocsic [] [] ∅ [].

Definition toc_marker : string := "# Table of Contents".

Inductive TocsicException :=
| NotAHeader (line_num : nat).

Inductive exc_result (A : Type) :=
| Ok (a : A)
| Raise (e : TocsicException).
Arguments Ok {A} a.
Arguments Raise {A} e.

Definition add_body (t : Tocsic) (s : string) : Tocsic :=
  mkTocsic (toc_info t) (body t ++ [s]) (header_dict t) (diagnostics t).

Definition found_link_error : string := "ERROR: There is something between <a> and a header".

Definition add_diagnostic (t : Tocsic) (s : string) : Tocsic :=
  mkTocsic (toc_info t) (body t) (header_dict t) (diagnostics t ++ [s]).

(** [Tocsic.make_toc_entry]; [keyword_line] is [None] or the pending
    anchor line, and Python's [if keyword_line:] tests it for non-emptiness. *)
Definition make_toc_entry (t : Tocsic) (line : string) (line_num : nat)
    (keyword_line : option string) : exc_result Tocsic :=
  match head_search line with
  | None => Raise (NotAHeader line_num)
  | Some (hashes, header_name) =>
      let lvl := hashes - 1 in
      match keyword_line with
      | Some kl =>
          if negb (String.eqb kl "") then
            let lnk := match keyword_search kl with Some w => w | None => "" end in
            Ok (mkTocsic (toc_info t ++ [mkEntry lvl header_name lnk]) (body t)
                  (header_dict t) (diagnostics t))
          else
            let '(d, lnk) := header_to_link (header_dict t) header_name in
            Ok (mkTocsic (toc_info t ++ [mkEntry lvl header_name lnk]) (body t) d (diagnostics t))
      | None =>
          let '(d, lnk) := header_to_link (header_dict t) header_name in
          Ok (mkTocsic (toc_info t ++ [mkEntry lvl header_name lnk]) (body t) d (diagnostics t))
      end
  end.

(** The line ['<a id="{}"></a>\n'.format(link)]. *)
Definition anchor_line (lnk : string) : string :=
  "<a id=" +:+ String dquote lnk +:+ tag_close +:+ String newline EmptyString.

Definition last_link (t : Tocsic) : string :=
  match last (toc_info t) with Some e => link e | None => "" end.

(** ** [Tocsic.process_body]: one iteration of its [while True] loop

    [BodyState.FOUND_HEADER] is declared in the source but never assigned,
    so it is left out.  The loop variables are [body_state] and
    [link_line]. *)

Inductive BodyState := BODY | FOUND_LINK | IN_CODE_BLOCK.

Definition fence : string := "```".

Definition body_step (body_state : BodyState) (link_line : string) (t : Tocsic)
    (line : string) (line_num : nat) : exc_result (BodyState * string * Tocsic) :=
  match body_state with
  | BODY =>
      if startswith line "<a" then Ok (FOUND_LINK, line, t)
      else if startswith line "#" then
        match make_toc_entry t line line_num None with
        | Raise e => Raise e
        | Ok t1 => Ok (BODY, link_line, add_body (add_body t1 (anchor_line (last_link t1))) line)
        end
      else if startswith line fence then Ok (IN_CODE_BLOCK, link_line, add_body t line)
      else Ok (BODY, link_line, add_body t line)
  | IN_CODE_BLOCK =>
      Ok (if startswith line fence then BODY else IN_CODE_BLOCK, link_line, add_body t line)
  | FOUND_LINK =>
      if startswith line "<a" then Ok (FOUND_LINK, line, add_body t line)
      else if startswith line "#" then
        match make_toc_entry t line line_num (Some link_line) with
        | Raise e => Raise e
        | Ok t1 => Ok (BODY, link_line, add_body (add_body t1 (anchor_line (last_link t1))) line)
        end
      else if negb (String.eqb (strip line) "") then
        Ok (FOUND_LINK, link_line, add_body (add_diagnostic t found_link_error) line)
      else Ok (FOUND_LINK, link_line, add_body t line)
  end.

(** ** [FileReader]: a line iterator with one slot of pushback *)

Record FileReader := mkReader {
  repeat : bool;
  last_line : string;
  iter : list string;
  line_num : nat
}.

Definition new_reader (f : list string) : FileReader := mkReader false "" f 0.

Definition next (r : FileReader) : option (string * FileReader) :=
  if repeat r then Some (last_line r, mkReader false (last_line r) (iter r) (line_num r))
  else match iter r with
       | [] => None
       | l :: it => Some (l, mkReader false l it (S (line_num r)))
       end.

Definition back (r : FileReader) : FileReader :=
  mkReader true (last_line r) (iter r) (line_num r).

(** The rest of the [while True] loop of [process_body], once the reader
    has no pending pushback: each [next] takes the following line of the
    file and numbers it. *)
Fixpoint body_run (body_state : BodyState) (link_line : string) (t : Tocsic)
    (n : nat) (it : list string) : exc_result (BodyState * string * Tocsic) :=
  match it with
  | [] => Ok (body_state, link_line, t)
  | line :: it' =>
      match body_step body_state link_line t line (S n) with
      | Raise e => Raise e
      | Ok (bs, ll, t1) => body_run bs ll t1 (S n) it'
      end
  end.

Definition body_loop (body_state : BodyState) (link_line : string) (t : Tocsic)
    (n : nat) (it : list string) : exc_result Tocsic :=
  match body_run body_state link_line t n it with
  | Raise e => Raise e
  | Ok (_, _, t1) => Ok t1
  end.

Definition process_body (t : Tocsic) (r : FileReader) : exc_result Tocsic :=
  match next r with
  | None => Ok t
  | Some (line, r1) =>
      match body_step BODY "" t line (line_num r1) with
      | Raise e => Raise e
      | Ok (bs, ll, t1) => body_loop bs ll t1 (line_num r1) (iter r1)
      end
  end.

(** ** [Tocsic.process_start] and [Tocsic.process_toc]

    After their first [next] the reader has no pending pushback, so the
    [while] loops read the following lines of the file.  [process_start]
    returns [None] on [StopIteration]; its caller only tests truthiness,
    modelled by [false]. *)

Fixpoint start_loop (last : string) (it : list string) (n : nat) : bool * FileReader :=
  match it with
  | [] => (false, mkReader false last [] n)
  | l :: it' =>
      if String.eqb (strip l) "" then start_loop l it' (S n)
      else (String.eqb (strip l) toc_marker, back (mkReader false l it' (S n)))
  end.

Definition process_start (r : FileReader) : bool * FileReader :=
  match next r with
  | None => (false, r)
  | Some (l, r1) =>
      if String.eqb (strip l) "" then start_loop (last_line r1) (iter r1) (line_num r1)
      else (String.eqb (strip l) toc_marker, back r1)
  end.

Fixpoint toc_loop (last : string) (it : list string) (n : nat) : FileReader :=
  match it with
  | [] => mkReader false last [] n
  | l :: it' =>
      if String.eqb (strip l) "" then back (mkReader false l it' (S n))
      else toc_loop l it' (S n)
  end.

Definition process_toc (r : FileReader) : FileReader :=
  match next r with
  | None => r
  | Some (l, r1) =>
      if String.eqb (strip l) "" then back r1
      else toc_loop (last_line r1) (iter r1) (line_num r1)
  end.

(** ** [Tocsic.make_toc], [Tocsic.generate_md] and [Tocsic.add_toc]

    The output file is the list of lines written: the TOC, one blank line,
    then the body. *)

Fixpoint indent (n : nat) : string :=
  match n with 0 => "" | S n' => "    " +:+ indent n' end.

Definition toc_line (e : toc_entry) : string :=
  indent (level e) +:+ "1. [" +:+ header_name e +:+ "](#" +:+ link e +:+ ")" +:+
  String newline EmptyString.

Definition make_toc (t : Tocsic) : list string :=
  (toc_marker +:+ String newline EmptyString) :: map toc_line (toc_info t).

Definition generate_md (t : Tocsic) : list string :=
  make_toc t ++ [String newline EmptyString] ++ body t.

(** The scan of [add_toc], on the lines of the input file. *)
Definition scan_document (f : list string) : exc_result Tocsic :=
  let '(has_toc, r1) := process_start (new_reader f) in
  let r2 := if has_toc then process_toc r1 else r1 in
  process_body init_tocsic r2.

(** [add_toc]: [Ok out] is the content written to the output file; on
    [Raise] the exception leaves [add_toc] before [generate_md] runs. *)
Definition add_toc (f : list string) : exc_result (list string) :=
  match scan_document f with
  | Raise e => Raise e
  | Ok t => Ok (generate_md t)
  end.

(** ** [Tocsic.make_output_name] *)

Fixpoint contains_char (c : ascii) (s : string) : bool :=
  match s with
  | EmptyString => false
  | String c' s' => Ascii.eqb c c' || contains_char c s'
  end.

(** [s.split('.', 1)]. *)
Fixpoint split_dot_once (s : string) : list string :=
  match s with
  | EmptyString => [EmptyString]
  | String c s' =>
      if Ascii.eqb c "." then [EmptyString; s']
      else match split_dot_once s' with
           | x :: xs => String c x :: xs
           | [] => [String c EmptyString]
           end
  end.

(** [sep.join(xs)]. *)
Fixpoint join (sep : string) (xs : list string) : string :=
  match xs with
  | [] => EmptyString
  | [x] => x
  | x :: xs' => x +:+ sep +:+ join sep xs'
  end.

Definition make_output_name (filename : string) : string :=
  if negb (contains_char "." filename) then filename +:+ "_toc"
  else srev (join ".cot_" (split_dot_once (srev filename))).

Definition nl : string := String newline EmptyString.

(** ** Auxiliary definitions used to state properties of the scan *)

(** Whether [add_toc] takes the start of the file for an existing TOC. *)
Definition has_leading_toc (f : list string) : bool :=
  fst (process_start (new_reader f)).

(** The lines a reader still delivers. *)
Definition reader_rest (r : FileReader) : list string :=
  if repeat r then last_line r :: iter r else iter r.

(** The lines [process_body] reads in [scan_document]. *)
Definition body_input (f : list string) : list string :=
  let '(has_toc, r1) := process_start (new_reader f) in
  reader_rest (if has_toc then process_toc r1 else r1).

(** The [body_state] after [process_body] reads [line]. *)
Definition next_state (bs : BodyState) (line : string) : BodyState :=
  match bs with
  | BODY =>
      if startswith line "<a" then FOUND_LINK
      else if startswith line "#" then BODY
      else if startswith line fence then IN_CODE_BLOCK
      else BODY
  | IN_CODE_BLOCK => if startswith line fence then BODY else IN_CODE_BLOCK
  | FOUND_LINK => if startswith line "<a" then FOUND_LINK
                  else if startswith line "#" then BODY
                  else FOUND_LINK
  end.

(** Whether [process_body] reads a fence line while an anchor tag is pending. *)
Fixpoint fence_while_pending (bs : BodyState) (ls : list string) : bool :=
  match ls with
  | [] => false
  | l :: ls' =>
      match bs with
      | FOUND_LINK => startswith l fence || fence_while_pending (next_state bs l) ls'
      | _ => fence_while_pending (next_state bs l) ls'
      end
  end.

(** Every character of [s] satisfies [p]. *)
Fixpoint all_chars (p : ascii -> bool) (s : string) : bool :=
  match s with
  | EmptyString => true
  | String c s' => p c && all_chars p s'
  end.

(** The anchor [header_to_link] returns for a candidate used [k] times before. *)
Definition suffixed (c : string) (k : nat) : string :=
  if (k =? 0)%nat then c else c +:+ "_" +:+ str_nat k.

(** Number of entries whose derived candidate is [c]. *)
Definition candidate_count (c : string) (es : list toc_entry) : nat :=
  length (List.filter (fun e => String.eqb (link_candidate (header_name e)) c) es).

(** The [(level, title)] of a header line. *)
Definition header_of (line : string) : nat * string :=
  match head_search line with Some (k, name) => (k - 1, name) | None => (0, "") end.

Definition level_title (e : toc_entry) : nat * string := (level e, header_name e).

(** The anchor derivation in the words of the specification (section 4.4):
    lower-case, replace every maximal run of spaces, hyphens and slashes
    by one underscore, strip underscores, keep alphanumerics and [_]. *)
Definition is_space_hyphen_slash (c : ascii) : bool :=
  Ascii.eqb c " " || Ascii.eqb c "-" || Ascii.eqb c "/".

Definition link_candidate_spec (header : string) : string :=
  sfilter is_word (strip_underscore (sub_runs is_space_hyphen_slash false (lower header))).

(** A run of [k] hashes. *)
Fixpoint hashes (k : nat) : string :=
  match k with 0 => EmptyString | S k' => String "#" (hashes k') end.

(** ** Files as text

    Iterating over a file opened for reading in text mode (after the
    translation of line endings to ['\n']) yields its lines: each ends at a
    newline, which it keeps, and a last line without newline is yielded if
    non-empty.  [acc] holds the current line, reversed. *)
Fixpoint file_lines_acc (acc : string) (s : string) : list string :=
  match s with
  | EmptyString => if String.eqb acc "" then [] else [srev acc]
  | String c s' =>
      if Ascii.eqb c newline then srev (String c acc) :: file_lines_acc EmptyString s'
      else file_lines_acc (String c acc) s'
  end.

Definition file_lines (s : string) : list string := file_lines_acc EmptyString s.

(** The text that the successive [f.write] calls leave in a file. *)
Fixpoint write_lines (ls : list string) : string :=
  match ls with [] => EmptyString | l :: ls' => l +:+ write_lines ls' end.

(** No newline in [s]. *)
Definition no_nl (s : string) : bool := all_chars (fun c => negb (Ascii.eqb c newline)) s.

(** A newline of [s], if any, is its last character. *)
Fixpoint nl_last (s : string) : bool :=
  match s with
  | EmptyString => true
  | String c s' => if Ascii.eqb c newline then String.eqb s' "" else nl_last s'
  end.

Fixpoint ends_nl (s : string) : bool :=
  match s with
  | EmptyString => false
  | String c EmptyString => Ascii.eqb c newline
  | String _ s' => ends_nl s'
  end.

(** [ls] is what iterating over a file yields: non-empty lines, each with
    a newline only at its end, all but the last ending with one. *)
Fixpoint lines_ok (ls : list string) : bool :=
  match ls with
  | [] => true
  | [l] => negb (String.eqb l "") && nl_last l
  | l :: ls' => nl_last l && ends_nl l && lines_ok ls'
  end.

(** How the state of a scan relates to the state of the scan of its own
    output, line for line: a pending anchor tag of the first scan may
    correspond to no pending one in the second. *)
Definition sim_state (bs1 bs2 : BodyState) : bool :=
  match bs1, bs2 with
  | BODY, BODY | IN_CODE_BLOCK, IN_CODE_BLOCK | FOUND_LINK, BODY | FOUND_LINK, FOUND_LINK => true
  | _, _ => false
  end.

(** The counters of [header_dict] and the anchors of the TOC entries made
    so far, when every entry got a derived anchor. *)
Definition link_inv (t : Tocsic) : Prop :=
  (forall c, default 0 (header_dict t !! c) = candidate_count c (toc_info t)) /\
  (forall j e, toc_info t !! j = Some e ->
     link e = suffixed (link_candidate (header_name e))
                (candidate_count (link_candidate (header_name e)) (take j (toc_info t)))).

(** ** [is_user_sure]

    Each call of [input()] returns the next answer, without its newline;
    when the answers run out it raises [EOFError], modelled by [None].  The
    second component lists what the function prints, in order. *)
Definition please_type : string :=
  "Please type " +:+ String dquote ("y" +:+ String dquote (" or " +:+ String dquote ("n" +:+ String dquote ""))).

Fixpoint user_sure_loop (answers : list string) : option bool * list string :=
  match answers with
  | [] => (None, [])
  | answer :: rest =>
      if String.eqb (lower answer) "y" || String.eqb (lower answer) "yes" then (Some true, [])
      else if String.eqb (lower answer) "n" || String.eqb (lower answer) "no" then (Some false, [])
      else let '(r, out) := user_sure_loop rest in (r, please_type :: out)
  end.

Definition is_user_sure (message : string) (answers : list string) : option bool * list string :=
  let '(r, out) := user_sure_loop answers in (r, message :: out).

(** Which answer counts as a "yes" and which as a valid answer. *)
Definition answer_yes (a : string) : bool :=
  String.eqb (lower a) "y" || String.eqb (lower a) "yes".
Definition answer_valid (a : string) : bool :=
  answer_yes a || String.eqb (lower a) "n" || String.eqb (lower a) "no".

(** ** [Tocsic.check_arguments] and [Tocsic.__init__]

    The command line is given by its parsed arguments [filename] and
    [output] ([None] when [-o] is absent); [path_is_file] stands for
    [os.path.exists(md_path) and os.path.isfile(md_path)], and [can_open]
    for the success of [open(self.input_file, 'r')].  An [InitRaise] is a
    [TocsicException] with its message, [InitEOF] the [EOFError] of
    [input()]. *)
Inductive init_result (A : Type) :=
| InitOk (a : A)
| InitRaise (msg : string)
| InitEOF.
Arguments InitOk {A} a.
Arguments InitRaise {A} msg.
Arguments InitEOF {A}.

(** The attributes [check_arguments] sets; [ca_is_valid] is [None] while
    the attribute [is_valid] has not been assigned. *)
Record CheckedArgs := mkChecked {
  ca_input_file : string;
  ca_output_file : string;
  ca_is_overwrite : bool;
  ca_is_valid : option bool
}.

Definition overwrite_question : string :=
  "Output file is the same as input file, rewrite? [y/n]".

Definition check_arguments (md_path : string) (output : option string) (path_is_file : bool)
    (answers : list string) : init_result CheckedArgs :=
  if negb path_is_file then InitRaise (md_path +:+ " does not exist or is not a file")
  else
    match output with
    | Some output_file =>
        if String.eqb output_file md_path then
          match fst (is_user_sure overwrite_question answers) with
          | None => InitEOF
          | Some true => InitOk (mkChecked md_path output_file true None)
          | Some false => InitOk (mkChecked md_path output_file true (Some false))
          end
        else InitOk (mkChecked md_path output_file false None)
    | None => InitOk (mkChecked md_path (make_output_name md_path) false None)
    end.

(** The attributes of a constructed [Tocsic] that [add_toc] uses besides
    the scan state. *)
Record TocsicSetup := mkSetup {
  input_file : string;
  output_file : string;
  is_overwrite : bool;
  is_valid : bool
}.

(** [Tocsic.__init__]: [check_arguments], then [open], then
    [self.is_valid = True]. *)
Definition tocsic_init (md_path : string) (output : option string) (path_is_file can_open : bool)
    (answers : list string) : init_result TocsicSetup :=
  match check_arguments md_path output path_is_file answers with
  | InitRaise msg => InitRaise msg
  | InitEOF => InitEOF
  | InitOk c =>
      if can_open then InitOk (mkSetup (ca_input_file c) (ca_output_file c) (ca_is_overwrite c) true)
      else InitRaise ("Failed to open file " +:+ ca_input_file c)
  end.

(** ** The script: [md = Tocsic(); md.add_toc()]

    [contents] is the text of the input file.  [RunWrote path text] means
    [generate_md] left [text] in the file [path] (writing is assumed to
    succeed); [RunSkipped] is the early return of [add_toc] when
    [is_valid] is false. *)
Inductive run_result :=
| RunRaise (msg : string)
| RunEOF
| RunAbort (e : TocsicException)
| RunSkipped
| RunWrote (path : string) (text : string).

Definition tocsic_main (md_path : string) (output : option string) (path_is_file can_open : bool)
    (contents : string) (answers : list string) : run_result :=
  match tocsic_init md_path output path_is_file can_open answers with
  | InitRaise msg => RunRaise msg
  | InitEOF => RunEOF
  | InitOk st =>
      if negb (is_valid st) then RunSkipped
      else match add_toc (file_lines contents) with
           | Raise e => RunAbort e
           | Ok out => RunWrote (output_file st) (write_lines out)
           end
  end.

(** ** Auxiliary definitions for the reader and the body loop *)

(** The number of lines of the file before the first one [r] still
    delivers. *)
Definition reader_pos (r : FileReader) : nat :=
  if repeat r then line_num r - 1 else line_num r.

(** [r] reads the file [f]: it has delivered the first [reader_pos r]
    lines and still delivers the others. *)
Definition reader_at (f : list string) (r : FileReader) : Prop :=
  (repeat r = true -> 1 <= line_num r) /\
  exists pre, f = (pre ++ reader_rest r)%list /\ length pre = reader_pos r.

(** Whether [process_body] in state [bs] makes a TOC entry of [line]. *)
Definition is_header_read (bs : BodyState) (line : string) : bool :=
  match bs with
  | IN_CODE_BLOCK => false
  | _ => negb (startswith line "<a") && startswith line "#"
  end.

(** The lines that [process_body], started in [bs], makes TOC entries of. *)
Fixpoint headers_read (bs : BodyState) (ls : list string) : list string :=
  match ls with
  | [] => []
  | l :: ls' =>
      if is_header_read bs l then l :: headers_read (next_state bs l) ls'
      else headers_read (next_state bs l) ls'
  end.

(** The body [b] holds the anchor line of the entry [e] right before a
    header line whose level and title are those of [e]. *)
Definition entry_anchored (b : list string) (e : toc_entry) : Prop :=
  exists pre l post k, b = (pre ++ anchor_line (link e) :: l :: post)%list /\
    head_search l = Some (k, header_name e) /\ level e = k - 1.

(** The lines that [process_body], started in [bs], reads outside a code
    block. *)
Fixpoint lines_outside_code (bs : BodyState) (ls : list string) : list string :=
  match ls with
  | [] => []
  | l :: ls' =>
      match bs with
      | IN_CODE_BLOCK => lines_outside_code (next_state bs l) ls'
      | _ => l :: lines_outside_code (next_state bs l) ls'
      end
  end.

(** * Proofs *)

(** ** String lemmas *)

Lemma sapp_assoc (a b c : string) : (a +:+ b) +:+ c = a +:+ (b +:+ c).
Proof. induction a as [|x a IH]; simpl; [reflexivity | now rewrite IH]. Qed.

Lemma sapp_nil_r (a : string) : a +:+ EmptyString = a.
Proof. induction a as [|x a IH]; simpl; [reflexivity | now rewrite IH]. Qed.

Lemma srev_app (a b : string) : srev (a +:+ b) = srev b +:+ srev a.
Proof.
  induction a as [|x a IH]; simpl.
  - now rewrite sapp_nil_r.
  - now rewrite IH, sapp_assoc.
Qed.

Lemma srev_involutive (a : string) : srev (srev a) = a.
Proof. induction a as [|x a IH]; simpl; [reflexivity | now rewrite srev_app, IH]. Qed.

Lemma contains_char_app (c : ascii) (a b : string) :
  contains_char c (a +:+ b) = contains_char c a || contains_char c b.
Proof.
  induction a as [|x a IH]; cbn [contains_char String.append]; [reflexivity|].
  now rewrite IH, orb_assoc.
Qed.

Lemma contains_char_srev (c : ascii) (a : string) : contains_char c (srev a) = contains_char c a.
Proof.
  induction a as [|x a IH]; cbn [contains_char srev]; [reflexivity|].
  rewrite contains_char_app, IH; cbn [contains_char]. now rewrite orb_false_r, orb_comm.
Qed.

Lemma split_dot_once_app (a b : string) :
  contains_char "." a = false -> split_dot_once (a +:+ String "." b) = [a; b].
Proof.
  induction a as [|x a IH]; intros H; [reflexivity|].
  cbn [contains_char] in H. apply orb_false_iff in H. destruct H as [Hx Ha].
  cbn [split_dot_once String.append].
  rewrite Ascii.eqb_sym, Hx, (IH Ha). reflexivity.
Qed.

Lemma startswith_cons (s : string) (c : ascii) (p : string) :
  startswith s (String c p) = true -> exists s', s = String c s' /\ startswith s' p = true.
Proof.
  unfold startswith. destruct s as [|c' s']; simpl; [discriminate|].
  destruct (ascii_dec c c') as [<-|]; [|discriminate]. eauto.
Qed.

(** ** Counterexamples and properties settled by evaluation *)

(** C9 (counterexample): the default output name of [a.md] is [a_toc.md]; the
    infix [.cot_] does not occur in it. *)
Lemma make_output_name_cot_counterexample :
  make_output_name "a.md" = "a_toc.md" /\ String.index 0 ".cot_" (make_output_name "a.md") = None.
Proof. split; reflexivity. Qed.

(** C9: when no output path is given, a file name containing a dot gets
    [_toc] inserted before its last dot (the infix that ends up in the name
    is [_toc.], the reverse of [.cot_]); a name without a dot gets [_toc]
    appended. *)
Theorem make_output_name_spec (base ext f : string)
    (Hext : contains_char "." ext = false) (Hf : contains_char "." f = false) :
  make_output_name (base +:+ String "." ext) = base +:+ "_toc" +:+ String "." ext /\
  make_output_name f = f +:+ "_toc".
Proof.
  unfold make_output_name. split; [|now rewrite Hf].
  rewrite contains_char_app. simpl. rewrite orb_true_r. simpl.
  rewrite srev_app. simpl. rewrite sapp_assoc. simpl.
  rewrite split_dot_once_app by now rewrite contains_char_srev. simpl.
  rewrite !srev_app. repeat rewrite srev_involutive. cbn [srev String.append].
  rewrite ?srev_involutive, !sapp_assoc, ?srev_involutive. reflexivity.
Qed.

Lemma make_output_name_spec_witness :
  contains_char "." "md" = false /\ contains_char "." "README" = false /\
  make_output_name ("notes" +:+ String "." "md") = "notes" +:+ "_toc" +:+ String "." "md" /\
  make_output_name "README" = "README" +:+ "_toc".
Proof.
  split; [reflexivity|]. split; [reflexivity|].
  apply (make_output_name_spec "notes" "md" "README"); reflexivity.
Defined.

(** C3 (failing input): for the title [a.b] the code derives [a_b], because
    [[ -/]] is the character range from ' ' to '/', which holds '.'; the
    procedure of the specification removes the dot and gives [ab].  The
    two examples of the specification do hold. *)
Theorem header_to_link_range_slip :
  snd (header_to_link ∅ "a.b") = "a_b" /\ link_candidate_spec "a.b" = "ab" /\
  snd (header_to_link ∅ "Hello World!") = "hello_world" /\
  snd (header_to_link (fst (header_to_link ∅ "Setup")) "Setup") = "setup_1".
Proof. vm_compute. repeat split. Qed.

(** ** Steps of the scanner *)

Lemma hash_line_prefixes (h : string) :
  startswith h "#" = true -> startswith h "<a" = false /\ startswith h fence = false.
Proof. intros H. destruct (startswith_cons _ _ _ H) as [h' [-> _]]. split; reflexivity. Qed.

Lemma anchor_line_prefix (x : string) : startswith (anchor_line x) "<a" = true.
Proof. reflexivity. Qed.

Lemma last_link_snoc (es : list toc_entry) (e : toc_entry) b d g :
  last_link (mkTocsic (es ++ [e]) b d g) = link e.
Proof. unfold last_link. cbn [toc_info]. now rewrite last_snoc. Qed.

Lemma make_toc_entry_keyword (t : Tocsic) (line kl : string) (n k : nat) (name : string) :
  kl <> "" -> head_search line = Some (k, name) ->
  make_toc_entry t line n (Some kl) =
  Ok (mkTocsic (toc_info t ++ [mkEntry (k - 1) name
                  (match keyword_search kl with Some w => w | None => "" end)])
        (body t) (header_dict t) (diagnostics t)).
Proof.
  intros Hkl Hh. unfold make_toc_entry. rewrite Hh.
  destruct (String.eqb_spec kl "") as [E|_]; [contradiction|reflexivity].
Qed.

(** A header line read while the anchor line [l] is pending. *)
Lemma found_link_header_step (t : Tocsic) (l h : string) (m k : nat) (name : string) :
  startswith l "<a" = true -> startswith h "#" = true -> head_search h = Some (k, name) ->
  body_step FOUND_LINK l t h m =
  Ok (BODY, l, mkTocsic (toc_info t ++ [mkEntry (k - 1) name
                           (match keyword_search l with Some w => w | None => "" end)])
                 (body t ++ [anchor_line (match keyword_search l with Some w => w | None => "" end); h])
                 (header_dict t) (diagnostics t)).
Proof.
  intros Hl Hh Hp. destruct (hash_line_prefixes h Hh) as [Ha _].
  destruct (startswith_cons _ _ _ Hl) as [l' [-> _]].
  unfold body_step. rewrite Ha, Hh.
  rewrite (make_toc_entry_keyword t h (String "<" l') m k name) by (discriminate || exact Hp).
  unfold add_body. rewrite last_link_snoc. cbn [toc_info body header_dict diagnostics].
  now rewrite <- app_assoc.
Qed.

(** C10: in the BODY state every line starting with ["<a"] is withheld and
    becomes the pending anchor line, whether or not it matches the anchor-tag
    pattern; when it does not match (as ["<abbr>"]), the following header's
    TOC entry gets the empty anchor and the body receives the line
    ['<a id=""></a>'] before the header. *)
Theorem unmatched_anchor_tag_empty_anchor (ll : string) (t : Tocsic) (l : string) (n : nat)
    (Hl : startswith l "<a" = true) :
  body_step BODY ll t l n = Ok (FOUND_LINK, l, t) /\
  (forall (h : string) (k : nat) (name : string),
     keyword_search l = None -> startswith h "#" = true -> head_search h = Some (k, name) ->
     body_step FOUND_LINK l t h (S n) =
     Ok (BODY, l, mkTocsic (toc_info t ++ [mkEntry (k - 1) name ""])
                    (body t ++ [anchor_line ""; h]) (header_dict t) (diagnostics t))).
Proof.
  split.
  - unfold body_step. now rewrite Hl.
  - intros h k name Hk Hh Hp.
    rewrite (found_link_header_step t l h (S n) k name Hl Hh Hp), Hk. reflexivity.
Qed.

Lemma unmatched_anchor_tag_empty_anchor_witness :
  startswith ("<abbr>" +:+ nl) "<a" = true /\
  body_step BODY "" init_tocsic ("<abbr>" +:+ nl) 1 = Ok (FOUND_LINK, "<abbr>" +:+ nl, init_tocsic) /\
  body_step FOUND_LINK ("<abbr>" +:+ nl) init_tocsic ("# A" +:+ nl) 2 =
  Ok (BODY, "<abbr>" +:+ nl, mkTocsic (toc_info init_tocsic ++ [mkEntry (1 - 1) "A" ""])
        (body init_tocsic ++ [anchor_line ""; "# A" +:+ nl]) (header_dict init_tocsic)
        (diagnostics init_tocsic)).
Proof.
  split; [reflexivity|].
  destruct (unmatched_anchor_tag_empty_anchor "" init_tocsic ("<abbr>" +:+ nl) 1 eq_refl)
    as [H1 H2].
  split; [exact H1|].
  apply (H2 ("# A" +:+ nl) 1 "A"); vm_compute; reflexivity.
Defined.

(** C5 (counterexample): after an anchor tag, a line of text leaves the
    scanner in the pending-anchor state (not BODY), so the anchor still
    goes to the next header ([x], where BODY would derive [a]). *)
Lemma found_link_content_counterexample :
  body_step BODY "" init_tocsic (anchor_line "x") 1 = Ok (FOUND_LINK, anchor_line "x", init_tocsic) /\
  body_step FOUND_LINK (anchor_line "x") init_tocsic ("text" +:+ nl) 2 =
    Ok (FOUND_LINK, anchor_line "x", mkTocsic [] ["text" +:+ nl] ∅ [found_link_error]) /\
  body_loop BODY "" init_tocsic 0 [anchor_line "x"; "text" +:+ nl; "# A" +:+ nl] =
    Ok (mkTocsic [mkEntry 0 "A" "x"] ["text" +:+ nl; anchor_line "x"; "# A" +:+ nl] ∅
          [found_link_error]).
Proof. split; [|split]; vm_compute; reflexivity. Qed.

(** C5: in the pending-anchor state a line that is no anchor tag, no header
    and not blank prints the diagnostic, is appended to the body, makes no
    TOC entry, and leaves the scanner in the pending-anchor state with the
    same pending anchor line. *)
Theorem found_link_content_keeps_pending (ll : string) (t : Tocsic) (l : string) (n : nat)
    (Ha : startswith l "<a" = false) (Hh : startswith l "#" = false) (Hs : strip l <> "") :
  body_step FOUND_LINK ll t l n =
  Ok (FOUND_LINK, ll, mkTocsic (toc_info t) (body t ++ [l]) (header_dict t)
                        (diagnostics t ++ [found_link_error])).
Proof.
  unfold body_step. rewrite Ha, Hh.
  destruct (String.eqb_spec (strip l) "") as [E|_]; [contradiction|reflexivity].
Qed.

Lemma found_link_content_keeps_pending_witness :
  startswith ("text" +:+ nl) "<a" = false /\ startswith ("text" +:+ nl) "#" = false /\
  strip ("text" +:+ nl) <> "" /\
  body_step FOUND_LINK (anchor_line "x") init_tocsic ("text" +:+ nl) 2 =
  Ok (FOUND_LINK, anchor_line "x", mkTocsic (toc_info init_tocsic) (body init_tocsic ++ ["text" +:+ nl])
        (header_dict init_tocsic) (diagnostics init_tocsic ++ [found_link_error])).
Proof.
  split; [reflexivity|]. split; [reflexivity|]. split; [vm_compute; discriminate|].
  apply found_link_content_keeps_pending; [reflexivity | reflexivity | vm_compute; discriminate].
Defined.

(** C6 (counterexample): the line ["  <a id=\"x\"></a>"] matches the anchor-tag
    pattern, but it does not start with ["<a"], so the next header gets the
    derived anchor [a], not [x]. *)
Lemma indented_anchor_tag_counterexample :
  keyword_search ("  " +:+ anchor_line "x") = Some "x" /\
  match scan_document ["  " +:+ anchor_line "x"; "# A" +:+ nl] with
  | Ok t => map link (toc_info t) = ["a"]
  | Raise _ => False
  end.
Proof. split; vm_compute; reflexivity. Qed.

(** C6: a line read in the BODY state becomes a pending anchor exactly when
    it starts with ["<a"]; the header that follows it gets, as its anchor,
    the identifier that searching the line for the anchor-tag pattern
    captures, or the empty string when the search fails. *)
Theorem anchor_tag_prefix_recognition (ll : string) (t : Tocsic) (l h : string)
    (n k : nat) (name : string)
    (Hl : startswith l "<a" = true) (Hh : startswith h "#" = true)
    (Hp : head_search h = Some (k, name)) :
  body_loop BODY ll t n [l; h] =
  Ok (mkTocsic (toc_info t ++ [mkEntry (k - 1) name
                  (match keyword_search l with Some w => w | None => "" end)])
        (body t ++ [anchor_line (match keyword_search l with Some w => w | None => "" end); h])
        (header_dict t) (diagnostics t)) /\
  (forall (l' : string) (n' : nat) (bs : BodyState) (ll' : string) (t' : Tocsic),
     startswith l' "<a" = false -> body_step BODY ll t l' n' = Ok (bs, ll', t') -> bs <> FOUND_LINK).
Proof.
  split.
  - unfold body_loop. cbn [body_run]. unfold body_step at 1. rewrite Hl.
    rewrite (found_link_header_step t l h (S (S n)) k name Hl Hh Hp). reflexivity.
  - intros l' n' bs ll' t' Ha Hstep. unfold body_step in Hstep. rewrite Ha in Hstep.
    destruct (startswith l' "#").
    + destruct (make_toc_entry t l' n' None); congruence.
    + destruct (startswith l' fence); congruence.
Qed.

Lemma anchor_tag_prefix_recognition_witness :
  startswith (anchor_line "custom") "<a" = true /\ startswith ("# My Header" +:+ nl) "#" = true /\
  head_search ("# My Header" +:+ nl) = Some (1, "My Header") /\
  body_loop BODY "" init_tocsic 0 [anchor_line "custom"; "# My Header" +:+ nl] =
  Ok (mkTocsic (toc_info init_tocsic ++ [mkEntry (1 - 1) "My Header"
                  (match keyword_search (anchor_line "custom") with Some w => w | None => "" end)])
        (body init_tocsic ++ [anchor_line (match keyword_search (anchor_line "custom") with
                                           Some w => w | None => "" end); "# My Header" +:+ nl])
        (header_dict init_tocsic) (diagnostics init_tocsic)).
Proof.
  do 3 (split; [reflexivity|]).
  apply (anchor_tag_prefix_recognition "" init_tocsic (anchor_line "custom") ("# My Header" +:+ nl) 0 1
           "My Header"); reflexivity.
Defined.

(** C4 (counterexample): a fence line read while an anchor tag is pending
    does not open a code block, so the header after it makes a TOC entry. *)
Lemma fence_after_anchor_counterexample :
  match scan_document [anchor_line "x"; fence +:+ nl; "# A" +:+ nl; fence +:+ nl] with
  | Ok t => toc_info t = [mkEntry 0 "A" "x"]
  | Raise _ => False
  end.
Proof. vm_compute. reflexivity. Qed.

(** C2 (failing input): the header pattern backtracks on the line ["####"]
    to group 1 ["###"] and title ["#"], so this line without a header name is
    not reported: the scan succeeds and writes an output with a level-2 entry
    titled ["#"]. *)
Lemma four_hashes_counterexample :
  head_search ("####" +:+ nl) = Some (3, "#") /\
  add_toc ["####" +:+ nl] =
  Ok [toc_marker +:+ nl; "        1. [#](#)" +:+ nl; nl; anchor_line ""; "####" +:+ nl].
Proof. split; vm_compute; reflexivity. Qed.

(** C1 (counterexample): four documents with header lines and no anchor
    tag.  When the first line is the TOC marker, it and the header after it
    are taken for an old TOC block, so the TOC has no entry.  The headers
    [A], [A] and [A 1] get the anchors [a], [a_1], [a_1].  A line [<abbr>]
    before the header [!] gives it the empty anchor, and the header [?]
    derives the empty anchor too.  A line ["#"] aborts the scan. *)
Lemma derived_anchor_counterexample :
  (match scan_document [toc_marker +:+ nl; "# A" +:+ nl] with
   | Ok t => toc_info t = []
   | Raise _ => False
   end) /\
  (match scan_document ["# A" +:+ nl; "# A" +:+ nl; "# A 1" +:+ nl] with
   | Ok t => map link (toc_info t) = ["a"; "a_1"; "a_1"]
   | Raise _ => False
   end) /\
  (match scan_document ["<abbr>" +:+ nl; "# !" +:+ nl; "# ?" +:+ nl] with
   | Ok t => map link (toc_info t) = [""; ""]
   | Raise _ => False
   end) /\
  scan_document ["# A" +:+ nl; "#" +:+ nl] = Raise (NotAHeader 2).
Proof. vm_compute. repeat split. Qed.

(** C7 (counterexample): for this input the TOC has the entry [A]; fed its
    own output, the tool finds [# A] inside a code block and makes a TOC
    with no entry. *)
Lemma rerun_toc_counterexample :
  match scan_document [anchor_line "x"; fence +:+ nl; "# A" +:+ nl] with
  | Ok t1 =>
      toc_info t1 = [mkEntry 0 "A" "x"] /\
      match scan_document (generate_md t1) with
      | Ok t2 => toc_info t2 = []
      | Raise _ => False
      end
  | Raise _ => False
  end.
Proof. vm_compute. split; reflexivity. Qed.

(** ** Runs of the body loop *)

Lemma body_run_app (bs : BodyState) (ll : string) (t : Tocsic) (n : nat) (xs ys : list string) :
  body_run bs ll t n (xs ++ ys) =
  match body_run bs ll t n xs with
  | Raise e => Raise e
  | Ok (bs', ll', t') => body_run bs' ll' t' (n + length xs) ys
  end.
Proof.
  revert bs ll t n. induction xs as [|x xs IH]; intros bs ll t n; cbn [body_run app length].
  - now rewrite Nat.add_0_r.
  - destruct (body_step bs ll t x (S n)) as [[[bs1 ll1] t1]|e]; [|reflexivity].
    rewrite IH. now rewrite Nat.add_succ_r.
Qed.

Lemma code_run (ll : string) (t : Tocsic) (n : nat) (code : list string) :
  Forall (fun l => startswith l fence = false) code ->
  body_run IN_CODE_BLOCK ll t n code =
  Ok (IN_CODE_BLOCK, ll, mkTocsic (toc_info t) (body t ++ code) (header_dict t) (diagnostics t)).
Proof.
  revert t n. induction code as [|c code IH]; intros t n Hc; cbn [body_run].
  - destruct t; cbn. now rewrite app_nil_r.
  - inversion Hc as [|? ? Hc1 Hcs]; subst. unfold body_step. rewrite Hc1.
    rewrite (IH _ _ Hcs). cbn. now rewrite <- app_assoc.
Qed.

(** C4: while the scanner is in the code-block state, every line up to and
    including the next fence line is appended to the body verbatim, with no
    TOC entry, no change of the header counters and no diagnostic, after which
    the scan goes on in BODY (or ends in the code block); the code-block state
    is entered only from BODY, by a line starting with a fence, so a fence line
    read while an anchor tag is pending opens no code block. *)
Theorem code_block_verbatim (ll : string) (t : Tocsic) (n : nat) (code : list string)
    (f : string) (rest : list string)
    (Hcode : Forall (fun l => startswith l fence = false) code)
    (Hf : startswith f fence = true) :
  body_run IN_CODE_BLOCK ll t n (code ++ f :: rest) =
    body_run BODY ll (mkTocsic (toc_info t) (body t ++ code ++ [f]) (header_dict t) (diagnostics t))
      (n + length code + 1) rest /\
  body_run IN_CODE_BLOCK ll t n code =
    Ok (IN_CODE_BLOCK, ll, mkTocsic (toc_info t) (body t ++ code) (header_dict t) (diagnostics t)) /\
  (forall (bs : BodyState) (ll0 : string) (t0 : Tocsic) (l : string) (m : nat) (ll1 : string) (t1 : Tocsic),
     body_step bs ll0 t0 l m = Ok (IN_CODE_BLOCK, ll1, t1) ->
     (bs = BODY /\ startswith l fence = true) \/ (bs = IN_CODE_BLOCK /\ startswith l fence = false)).
Proof.
  split; [|split].
  - rewrite body_run_app, (code_run ll t n code Hcode). cbn [body_run].
    unfold body_step. rewrite Hf. unfold add_body. cbn [toc_info body header_dict diagnostics].
    rewrite <- app_assoc. f_equal. lia.
  - exact (code_run ll t n code Hcode).
  - intros bs ll0 t0 l m ll1 t1 H. destruct bs; unfold body_step in H.
    + destruct (startswith l "<a"); [discriminate|].
      destruct (startswith l "#").
      * destruct (make_toc_entry t0 l m None); discriminate.
      * destruct (startswith l fence) eqn:E; [now left | discriminate].
    + destruct (startswith l "<a"); [discriminate|].
      destruct (startswith l "#").
      * destruct (make_toc_entry t0 l m (Some ll0)); discriminate.
      * destruct (negb (String.eqb (strip l) "")); discriminate.
    + destruct (startswith l fence) eqn:E; [discriminate | now right].
Qed.

Lemma code_block_verbatim_witness :
  Forall (fun l => startswith l fence = false) ["# not a header" +:+ nl] /\
  startswith (fence +:+ nl) fence = true /\
  body_run IN_CODE_BLOCK "" init_tocsic 1 (["# not a header" +:+ nl] ++ (fence +:+ nl) :: []) =
    body_run BODY "" (mkTocsic (toc_info init_tocsic)
                        (body init_tocsic ++ ["# not a header" +:+ nl] ++ [fence +:+ nl])
                        (header_dict init_tocsic) (diagnostics init_tocsic))
      (1 + length ["# not a header" +:+ nl] + 1) [].
Proof.
  split; [repeat constructor|]. split; [reflexivity|].
  apply (code_block_verbatim "" init_tocsic 1 ["# not a header" +:+ nl] (fence +:+ nl) []);
    [repeat constructor | reflexivity].
Defined.

(** ** The header pattern *)

Lemma lstrip_by_app_nonempty (p : ascii -> bool) (a : string) (c : ascii) (b : string) :
  p c = false -> lstrip_by p (a +:+ String c b) <> "".
Proof.
  intros Hc. induction a as [|x a IH]; cbn [lstrip_by String.append].
  - rewrite Hc. discriminate.
  - destruct (p x); [exact IH | discriminate].
Qed.

Lemma lstrip_by_shape (p : ascii -> bool) (s : string) :
  lstrip_by p s = "" \/ exists c s', lstrip_by p s = String c s' /\ p c = false.
Proof.
  induction s as [|x s IH]; cbn [lstrip_by]; [now left|].
  destruct (p x) eqn:E; [exact IH | right; eauto].
Qed.

Lemma srev_empty (s : string) : srev s = "" -> s = "".
Proof. intros H. rewrite <- (srev_involutive s), H. reflexivity. Qed.

Lemma strip_by_empty (p : ascii -> bool) (s : string) :
  strip_by p s = "" <-> lstrip_by p s = "".
Proof.
  split; intros H.
  - destruct (lstrip_by_shape p s) as [E|(c & s' & E & Hc)]; [exact E|].
    exfalso. unfold strip_by in H. rewrite E in H. apply srev_empty in H.
    cbn [srev] in H. exact (lstrip_by_app_nonempty p (srev s') c "" Hc H).
  - unfold strip_by. rewrite H. reflexivity.
Qed.

Lemma strip_empty_no_hash (r : string) : strip r = "" -> split_hashes r = (0, r).
Proof.
  unfold strip. rewrite strip_by_empty. destruct r as [|c r]; [reflexivity|].
  cbn [split_hashes lstrip_by]. intros H.
  destruct (Ascii.eqb_spec c "#") as [->|Hc]; [discriminate | reflexivity].
Qed.

Lemma split_hashes_make (k : nat) (r : string) :
  strip r = "" -> split_hashes (hashes k +:+ r) = (k, r).
Proof.
  intros Hr. induction k as [|k IH]; cbn [hashes String.append].
  - exact (strip_empty_no_hash r Hr).
  - cbn [split_hashes]. rewrite IH. reflexivity.
Qed.

Lemma head_search_hash_none (r : string) :
  head_search (String "#" r) = None <-> strip r = "".
Proof.
  cbn [head_search]. change (Ascii.eqb "#" "#") with true. cbv iota.
  unfold head_match_at. cbn [split_hashes]. change (Ascii.eqb "#" "#") with true. cbv iota.
  destruct r as [|c r'].
  - split; reflexivity.
  - cbn [split_hashes]. destruct (Ascii.eqb_spec c "#") as [->|Hc].
    + destruct (split_hashes r') as [k r''].
      split; intros H.
      * destruct (negb (String.eqb (strip r'') "")); [discriminate|].
        destruct (Nat.leb 2 (S (S k))) eqn:E; [discriminate|].
        apply Nat.leb_gt in E. lia.
      * exfalso. unfold strip in H. rewrite strip_by_empty in H. discriminate.
    + split; intros H.
      * destruct (String.eqb_spec (strip (String c r')) "") as [E|E]; [exact E | discriminate].
      * rewrite H. reflexivity.
Qed.

(** In the BODY and pending-anchor states, a line that starts with ['#']
    but that the header pattern does not match aborts the scan with
    [NotAHeader] carrying its 1-based line number, and [add_toc] then writes
    no output; the pattern fails exactly on a single ['#'] followed by
    whitespace only, while two or more ['#'] followed by whitespace only match
    (title ["#"], level two less than the number of ['#']). *)
Theorem malformed_header_aborts (ll : string) (t : Tocsic) (n : nat) (pre : list string)
    (bs : BodyState) (ll' : string) (t' : Tocsic) (l : string) (rest : list string)
    (Hpre : body_run BODY ll t n pre = Ok (bs, ll', t')) (Hbs : bs <> IN_CODE_BLOCK)
    (Hh : startswith l "#" = true) (Hp : head_search l = None) :
  body_loop BODY ll t n (pre ++ l :: rest) = Raise (NotAHeader (S (n + length pre))) /\
  (forall (f : list string) (e : TocsicException), scan_document f = Raise e -> add_toc f = Raise e) /\
  (forall l0 : string, startswith l0 "#" = true ->
     (head_search l0 = None <-> exists r, l0 = String "#" r /\ strip r = "")) /\
  (forall (k : nat) (r : string), 2 <= k -> strip r = "" ->
     head_search (hashes k +:+ r) = Some (k - 1, "#")).
Proof.
  split; [|split; [|split]].
  - unfold body_loop. rewrite body_run_app, Hpre. cbn [body_run].
    destruct (hash_line_prefixes l Hh) as [Ha _].
    destruct bs; [| |contradiction]; unfold body_step; rewrite Ha, Hh;
      unfold make_toc_entry; rewrite Hp; reflexivity.
  - intros f e H. unfold add_toc. now rewrite H.
  - intros l0 H0. destruct (startswith_cons _ _ _ H0) as [r [-> _]].
    rewrite head_search_hash_none. split.
    + intros Hr. eauto.
    + intros (r' & E & Hr'). injection E as <-. exact Hr'.
  - intros k r Hk Hr. destruct k as [|k]; [lia|].
    cbn [hashes String.append head_search]. change (Ascii.eqb "#" "#") with true. cbv iota.
    unfold head_match_at. change (String "#" (hashes k +:+ r)) with (hashes (S k) +:+ r).
    rewrite split_hashes_make by exact Hr. rewrite Hr. cbn [String.eqb negb].
    destruct (Nat.leb_spec 2 (S k)); [reflexivity | lia].
Qed.

Lemma malformed_header_aborts_witness :
  body_run BODY "" init_tocsic 0 [] = Ok (BODY, "", init_tocsic) /\ BODY <> IN_CODE_BLOCK /\
  startswith ("#" +:+ nl) "#" = true /\ head_search ("#" +:+ nl) = None /\
  body_loop BODY "" init_tocsic 0 ([] ++ ("#" +:+ nl) :: ["text" +:+ nl]) =
    Raise (NotAHeader (S (0 + length (@nil string)))).
Proof.
  split; [reflexivity|]. split; [discriminate|]. split; [reflexivity|]. split; [vm_compute; reflexivity|].
  apply (malformed_header_aborts "" init_tocsic 0 [] BODY "" init_tocsic ("#" +:+ nl) ["text" +:+ nl]);
    [reflexivity | discriminate | reflexivity | vm_compute; reflexivity].
Defined.

(** ** Leading blank lines and an existing TOC block *)

Lemma start_loop_nonblank (last : string) (blanks : list string) (l : string) (xs : list string) (n : nat) :
  Forall (fun b => strip b = "") blanks -> strip l <> "" ->
  start_loop last (blanks ++ l :: xs) n =
  (String.eqb (strip l) toc_marker, back (mkReader false l xs (n + length blanks + 1))).
Proof.
  revert last n. induction blanks as [|b blanks IH]; intros last n Hb Hl; cbn [start_loop app length].
  - destruct (String.eqb_spec (strip l) "") as [E|_]; [contradiction|].
    now rewrite Nat.add_0_r, Nat.add_1_r.
  - inversion Hb as [|? ? Hb1 Hbs]; subst. rewrite Hb1. cbn [String.eqb].
    rewrite (IH b (S n) Hbs Hl). do 4 f_equal. lia.
Qed.

Lemma start_loop_blank (last : string) (blanks : list string) (n : nat) :
  Forall (fun b => strip b = "") blanks ->
  exists last', start_loop last blanks n = (false, mkReader false last' [] (n + length blanks)).
Proof.
  revert last n. induction blanks as [|b blanks IH]; intros last n Hb; cbn [start_loop length].
  - exists last. now rewrite Nat.add_0_r.
  - inversion Hb as [|? ? Hb1 Hbs]; subst. rewrite Hb1. cbn [String.eqb].
    destruct (IH b (S n) Hbs) as [last' ->]. exists last'.
    now replace (n + S (length blanks)) with (S n + length blanks) by lia.
Qed.

Lemma process_start_nonblank (blanks : list string) (l : string) (xs : list string) :
  Forall (fun b => strip b = "") blanks -> strip l <> "" ->
  process_start (new_reader (blanks ++ l :: xs)) =
  (String.eqb (strip l) toc_marker, back (mkReader false l xs (length blanks + 1))).
Proof.
  intros Hb Hl. destruct blanks as [|b blanks]; unfold process_start, next, new_reader;
    cbn [repeat iter line_num last_line app].
  - destruct (String.eqb_spec (strip l) "") as [E|_]; [contradiction | reflexivity].
  - inversion Hb as [|? ? Hb1 Hbs]; subst. rewrite Hb1. cbn [String.eqb].
    rewrite (start_loop_nonblank b blanks l xs 1 Hbs Hl). cbn [length]. reflexivity.
Qed.

Lemma toc_loop_skip (last : string) (toc rest : list string) (n : nat) :
  Forall (fun x => strip x <> "") toc ->
  exists last', toc_loop last (toc ++ rest) n = toc_loop last' rest (n + length toc).
Proof.
  revert last n. induction toc as [|x toc IH]; intros last n Ht; cbn [toc_loop app length].
  - exists last. now rewrite Nat.add_0_r.
  - inversion Ht as [|? ? Ht1 Hts]; subst.
    destruct (String.eqb_spec (strip x) "") as [E|_]; [contradiction|].
    destruct (IH x (S n) Hts) as [last' E]. exists last'. rewrite E. f_equal. lia.
Qed.

Lemma process_body_back (t : Tocsic) (l : string) (xs : list string) (m : nat) :
  process_body t (back (mkReader false l xs (S m))) = body_loop BODY "" t m (l :: xs).
Proof.
  unfold process_body, body_loop, next, back. cbn [repeat last_line iter line_num body_run].
  destruct (body_step BODY "" t l (S m)) as [[[bs ll] t1]|e]; reflexivity.
Qed.

(** What [scan_document] makes of a file whose first non-blank line is [l]. *)
Lemma scan_document_nonblank (blanks : list string) (l : string) (xs : list string) :
  Forall (fun b => strip b = "") blanks -> strip l <> "" ->
  scan_document (blanks ++ l :: xs) =
  if String.eqb (strip l) toc_marker
  then process_body init_tocsic (toc_loop l xs (length blanks + 1))
  else body_loop BODY "" init_tocsic (length blanks) (l :: xs).
Proof.
  intros Hb Hl. unfold scan_document. rewrite (process_start_nonblank blanks l xs Hb Hl).
  destruct (String.eqb (strip l) toc_marker).
  - unfold process_toc, next, back. cbn [repeat last_line iter line_num].
    destruct (String.eqb_spec (strip l) "") as [E|_]; [contradiction | reflexivity].
  - rewrite Nat.add_1_r. apply process_body_back.
Qed.

Lemma scan_document_blank (blanks : list string) :
  Forall (fun b => strip b = "") blanks -> scan_document blanks = Ok init_tocsic.
Proof.
  intros Hb. unfold scan_document. destruct blanks as [|b blanks]; [reflexivity|].
  inversion Hb as [|? ? Hb1 Hbs]; subst.
  unfold process_start, next, new_reader. cbn [repeat iter line_num last_line]. rewrite Hb1.
  cbn [String.eqb]. destruct (start_loop_blank b blanks 1 Hbs) as [last' ->]. reflexivity.
Qed.

(** C8: the blank lines before the first non-blank line never reach the
    body, whether that line is the TOC marker or not; when it is the
    marker, it and the non-blank lines after it (the old TOC block) are
    dropped too, and the scan is the body loop on what follows, numbered
    from the right line. *)
Theorem leading_blank_and_toc_lines_dropped (blanks toc rest : list string) (l : string)
    (Hb : Forall (fun b => strip b = "") blanks) (Hl : strip l <> "") :
  (strip l = toc_marker -> Forall (fun x => strip x <> "") toc ->
   (rest = [] \/ exists b r, rest = b :: r /\ strip b = "") ->
   scan_document (blanks ++ l :: toc ++ rest) =
     body_loop BODY "" init_tocsic (length blanks + 1 + length toc) rest) /\
  (strip l <> toc_marker ->
   scan_document (blanks ++ l :: rest) = body_loop BODY "" init_tocsic (length blanks) (l :: rest)) /\
  scan_document blanks = Ok init_tocsic.
Proof.
  split; [|split].
  - intros Hm Ht Hr. rewrite (scan_document_nonblank blanks l (toc ++ rest) Hb Hl), Hm.
    rewrite String.eqb_refl. destruct (toc_loop_skip l toc rest (length blanks + 1) Ht) as [last' ->].
    destruct Hr as [->|(b & r & -> & Hb')].
    + reflexivity.
    + cbn [toc_loop]. rewrite Hb'. cbn [String.eqb]. apply process_body_back.
  - intros Hm. rewrite (scan_document_nonblank blanks l rest Hb Hl).
    destruct (String.eqb_spec (strip l) toc_marker); [contradiction | reflexivity].
  - exact (scan_document_blank blanks Hb).
Qed.

Lemma leading_blank_and_toc_lines_dropped_witness :
  Forall (fun b => strip b = "") [nl] /\ strip (toc_marker +:+ nl) <> "" /\
  scan_document ([nl] ++ (toc_marker +:+ nl) :: ["1. [A](#a)" +:+ nl] ++ [nl; "# A" +:+ nl]) =
    body_loop BODY "" init_tocsic (length [nl] + 1 + length ["1. [A](#a)" +:+ nl]) [nl; "# A" +:+ nl].
Proof.
  split; [repeat constructor|]. split; [vm_compute; discriminate|].
  apply (leading_blank_and_toc_lines_dropped [nl] ["1. [A](#a)" +:+ nl] [nl; "# A" +:+ nl]
           (toc_marker +:+ nl)); [repeat constructor | vm_compute; discriminate | reflexivity
                                  | repeat constructor; vm_compute; discriminate
                                  | right; eexists; eexists; split; [reflexivity | reflexivity]].
Defined.

(** ** Derived anchors *)

#[local] Open Scope list_scope.

Lemma header_to_link_eq (d : gmap string nat) (name : string) :
  header_to_link d name =
  (<[link_candidate name := S (default 0 (d !! link_candidate name))]> d,
   suffixed (link_candidate name) (default 0 (d !! link_candidate name))).
Proof.
  unfold header_to_link, suffixed. destruct (default 0 (d !! link_candidate name)) as [|k]; cbn.
  - reflexivity.
  - now rewrite Nat.add_1_r.
Qed.

Lemma candidate_count_snoc (c : string) (es : list toc_entry) (e : toc_entry) :
  candidate_count c (es ++ [e]) =
  candidate_count c es + (if String.eqb (link_candidate (header_name e)) c then 1 else 0).
Proof.
  unfold candidate_count. rewrite List.filter_app, length_app. cbn [List.filter].
  destruct (String.eqb (link_candidate (header_name e)) c); reflexivity.
Qed.

Lemma candidate_count_take_le (c : string) (es : list toc_entry) (i : nat) :
  candidate_count c (take i es) <= candidate_count c es.
Proof.
  revert i. induction es as [|e es IH]; intros [|i]; cbn; try lia.
  unfold candidate_count in *. cbn [List.filter].
  destruct (String.eqb (link_candidate (header_name e)) c); cbn [length]; specialize (IH i); lia.
Qed.

Lemma slen_app (a b : string) : String.length (a +:+ b) = String.length a + String.length b.
Proof. induction a as [|x a IH]; cbn; [reflexivity | now rewrite IH]. Qed.

Lemma sapp_cancel_l (a b c : string) : a +:+ b = a +:+ c -> b = c.
Proof. induction a as [|x a IH]; cbn; [easy | intros H; injection H; exact IH]. Qed.

Lemma suffixed_inj (c : string) (a b : nat) : suffixed c a = suffixed c b -> a = b.
Proof.
  unfold suffixed. destruct a as [|a], b as [|b]; cbn [Nat.eqb]; intros H; [reflexivity| | |].
  - exfalso. apply (f_equal String.length) in H. rewrite !slen_app in H. cbn in H. lia.
  - exfalso. apply (f_equal String.length) in H. rewrite !slen_app in H. cbn in H. lia.
  - apply sapp_cancel_l in H. injection H as H. unfold str_nat in H. now apply (inj pretty) in H.
Qed.

Lemma link_inv_init : link_inv init_tocsic.
Proof.
  split.
  - intros c. reflexivity.
  - intros j e H. unfold init_tocsic in H. cbn [toc_info] in H. rewrite lookup_nil in H. discriminate.
Qed.

Lemma link_inv_snoc (t : Tocsic) (lvl : nat) (name : string) (b g : list string) :
  link_inv t ->
  link_inv (mkTocsic
    (toc_info t ++ [mkEntry lvl name (suffixed (link_candidate name)
                                        (default 0 (header_dict t !! link_candidate name)))])
    b (<[link_candidate name := S (default 0 (header_dict t !! link_candidate name))]> (header_dict t)) g).
Proof.
  intros [Hd Hl]. split; cbn [header_dict toc_info].
  - intros c. rewrite candidate_count_snoc. cbn [header_name].
    destruct (String.eqb_spec (link_candidate name) c) as [<-|Hne].
    + rewrite lookup_insert_eq. cbn. rewrite Hd. lia.
    + rewrite lookup_insert_ne by exact Hne. rewrite Hd. lia.
  - intros j e Hj. rewrite lookup_snoc_Some in Hj. destruct Hj as [[Hlt Hj]|[-> <-]].
    + rewrite take_app_le by lia. exact (Hl j e Hj).
    + rewrite take_app_length. cbn [link header_name]. now rewrite Hd.
Qed.

Lemma link_inv_distinct (t : Tocsic) (i j : nat) (ei ej : toc_entry) :
  link_inv t -> i <> j -> toc_info t !! i = Some ei -> toc_info t !! j = Some ej ->
  link_candidate (header_name ei) = link_candidate (header_name ej) -> link ei <> link ej.
Proof.
  intros [_ Hl] Hij Hi Hj Hc E.
  assert (forall i j ei ej, i < j -> toc_info t !! i = Some ei -> toc_info t !! j = Some ej ->
            link_candidate (header_name ei) = link_candidate (header_name ej) -> link ei <> link ej) as Hlt.
  { clear i j ei ej Hij Hi Hj Hc E. intros i j ei ej Hij Hi Hj Hc E.
    rewrite (Hl i ei Hi), (Hl j ej Hj), Hc in E. apply suffixed_inj in E.
    set (c := link_candidate (header_name ej)) in *.
    assert (candidate_count c (take (S i) (toc_info t)) <= candidate_count c (take j (toc_info t))).
    { replace (take (S i) (toc_info t)) with (take (S i) (take j (toc_info t)))
        by (rewrite take_take; f_equal; lia).
      apply candidate_count_take_le. }
    rewrite (take_S_r _ _ _ Hi), candidate_count_snoc, Hc in H. fold c in H.
    rewrite String.eqb_refl in H. lia. }
  apply Nat.lt_gt_cases in Hij as [H|H].
  - exact (Hlt i j ei ej H Hi Hj Hc E).
  - exact (Hlt j i ej ei H Hj Hi (eq_sym Hc) (eq_sym E)).
Qed.

Lemma blank_prefix_split (f : list string) :
  Forall (fun b => strip b = "") f \/
  exists blanks l xs, f = (blanks ++ l :: xs)%list /\ Forall (fun b => strip b = "") blanks /\ strip l <> "".
Proof.
  induction f as [|x f IH]; [left; constructor|].
  destruct (String.eqb_spec (strip x) "") as [Hx|Hx].
  - destruct IH as [H|(blanks & l & xs & -> & Hb & Hl)].
    + left. now constructor.
    + right. exists (x :: blanks), l, xs. split; [reflexivity|]. split; [now constructor | exact Hl].
  - right. exists [], x, f. split; [reflexivity|]. split; [constructor | exact Hx].
Qed.

Lemma blank_not_hash (b : string) : strip b = "" -> startswith b "#" = false.
Proof.
  unfold strip. rewrite strip_by_empty. destruct b as [|c b]; [reflexivity|].
  unfold startswith. cbn [String.prefix]. destruct (ascii_dec "#" c) as [<-|]; [|reflexivity].
  cbn [lstrip_by]. change (is_space "#") with false. cbv iota. discriminate.
Qed.

(** ** Anchors written to the body, read back *)

Lemma all_chars_app (p : ascii -> bool) (a b : string) :
  all_chars p (a +:+ b) = all_chars p a && all_chars p b.
Proof. induction a as [|x a IH]; cbn; [reflexivity|]. now rewrite IH, andb_assoc. Qed.

Lemma all_chars_impl (p q : ascii -> bool) (s : string) :
  (forall c, p c = true -> q c = true) -> all_chars p s = true -> all_chars q s = true.
Proof.
  intros Hpq. induction s as [|c s IH]; cbn; [reflexivity|].
  intros H. apply andb_true_iff in H as [Hc Hs]. now rewrite (Hpq c Hc), (IH Hs).
Qed.

Lemma all_chars_sfilter (p : ascii -> bool) (s : string) : all_chars p (sfilter p s) = true.
Proof.
  induction s as [|c s IH]; cbn [sfilter]; [reflexivity|].
  destruct (p c) eqn:E; cbn [all_chars]; [now rewrite E, IH | exact IH].
Qed.

Lemma pretty_N_go_word (x : N) (s : string) :
  all_chars is_word s = true -> all_chars is_word (pretty_N_go x s) = true.
Proof.
  revert s. induction (N.lt_wf_0 x) as [x _ IH]; intros s Hs.
  destruct (decide (x = 0)%N) as [->|Hx]; [now rewrite pretty_N_go_0|].
  rewrite pretty_N_go_step by lia. apply IH; [apply N.div_lt; lia|].
  cbn [all_chars]. rewrite Hs, andb_true_r.
  unfold pretty_N_char. repeat case_match; reflexivity.
Qed.

Lemma str_nat_word (k : nat) : all_chars is_word (str_nat k) = true.
Proof.
  unfold str_nat, pretty, pretty_nat. unfold pretty, pretty_N. case_decide; [reflexivity|].
  now apply pretty_N_go_word.
Qed.

Lemma suffixed_word (c : string) (k : nat) :
  all_chars is_word c = true -> all_chars is_word (suffixed c k) = true.
Proof.
  intros Hc. unfold suffixed. destruct (k =? 0)%nat; [exact Hc|].
  rewrite !all_chars_app, Hc, str_nat_word. reflexivity.
Qed.

Lemma word_or_dash_of_word (s : string) :
  all_chars is_word s = true -> all_chars is_word_or_dash s = true.
Proof. apply all_chars_impl. intros c H. unfold is_word_or_dash. now rewrite H. Qed.

Lemma span_fst_all (p : ascii -> bool) (s : string) : all_chars p (fst (span p s)) = true.
Proof.
  induction s as [|c s IH]; cbn [span]; [reflexivity|].
  destruct (p c) eqn:E; [|reflexivity].
  destruct (span p s) as [w r]. cbn [fst all_chars] in *. now rewrite E, IH.
Qed.

Lemma keyword_match_at_word (s w : string) :
  keyword_match_at s = Some w -> all_chars is_word_or_dash w = true.
Proof.
  unfold keyword_match_at. intros H. repeat case_match; simplify_eq.
  match goal with E : span is_word_or_dash ?s3 = (w, _) |- _ =>
    pose proof (span_fst_all is_word_or_dash s3) as Hs; rewrite E in Hs; exact Hs end.
Qed.

Lemma keyword_search_word (s w : string) :
  keyword_search s = Some w -> all_chars is_word_or_dash w = true.
Proof.
  induction s as [|c s IH]; cbn [keyword_search]; [discriminate|].
  destruct (keyword_match_at (String c s)) as [w'|] eqn:E.
  - intros [= <-]. exact (keyword_match_at_word _ _ E).
  - exact IH.
Qed.

Lemma span_app (p : ascii -> bool) (x : string) (c : ascii) (r : string) :
  all_chars p x = true -> p c = false -> span p (x +:+ String c r) = (x, String c r).
Proof.
  induction x as [|y x IH]; cbn [all_chars String.append span]; intros Hx Hc.
  - now rewrite Hc.
  - apply andb_true_iff in Hx as [Hy Hx]. rewrite Hy, IH by assumption. reflexivity.
Qed.

Lemma prefix_app (a b : string) : String.prefix a (a +:+ b) = true.
Proof.
  induction a as [|x a IH]; [destruct b; reflexivity|]. cbn [String.prefix String.append].
  destruct (ascii_dec x x) as [_|n]; [exact IH | now destruct n].
Qed.

Lemma keyword_search_cons (a : ascii) (s : string) :
  keyword_search (String a s) =
  match keyword_match_at (String a s) with Some w => Some w | None => keyword_search s end.
Proof. reflexivity. Qed.

Lemma keyword_match_anchor (x : string) :
  x <> "" -> all_chars is_word_or_dash x = true -> keyword_match_at (anchor_line x) = Some x.
Proof.
  intros Hne Hx. unfold anchor_line.
  cbn [String.append]. unfold keyword_match_at. cbn [lstrip_by Ascii.eqb Bool.eqb].
  change (dquote =? dquote)%char with true. cbv iota.
  change (x +:+ tag_close +:+ String newline "") with (x +:+ String dquote ("></a>" +:+ String newline "")).
  rewrite span_app by (exact Hx || reflexivity). cbv iota zeta.
  destruct (String.eqb_spec x "") as [E|_]; [contradiction|].
  change (String dquote ("></a>" +:+ String newline "")) with (tag_close +:+ String newline "").
  now rewrite prefix_app.
Qed.

(** The anchor line written for an anchor [x] of word characters and
    hyphens gives [x] back when it is read as a pending anchor tag. *)
Lemma keyword_anchor_line (x : string) :
  all_chars is_word_or_dash x = true ->
  match keyword_search (anchor_line x) with Some w => w | None => "" end = x.
Proof.
  destruct x as [|c x']; intros Hx; [vm_compute; reflexivity|].
  change (anchor_line (String c x')) with
    (String "<" ("a id=" +:+ String dquote (String c x' +:+ tag_close +:+ String newline EmptyString))).
  rewrite keyword_search_cons. change (String "<" _) with (anchor_line (String c x')).
  rewrite keyword_match_anchor by (discriminate || exact Hx). reflexivity.
Qed.

Lemma make_toc_entry_ok (t : Tocsic) (l : string) (n : nat) (kl : option string) (t' : Tocsic) :
  make_toc_entry t l n kl = Ok t' ->
  exists k name x, head_search l = Some (k, name) /\
    toc_info t' = toc_info t ++ [mkEntry (k - 1) name x] /\ body t' = body t /\
    all_chars is_word_or_dash x = true.
Proof.
  unfold make_toc_entry. destruct (head_search l) as [[k name]|]; [|discriminate].
  assert (forall x, all_chars is_word_or_dash
            (suffixed (link_candidate name) x) = true) as Hsuf.
  { intros x. apply word_or_dash_of_word, suffixed_word. apply all_chars_sfilter. }
  destruct kl as [kl|]; [destruct (negb (String.eqb kl ""))|]; rewrite ?header_to_link_eq;
    intros [= <-]; do 3 eexists; (split; [reflexivity|]); cbn [toc_info body];
    (split; [reflexivity|]); (split; [reflexivity|]); try apply Hsuf.
  destruct (keyword_search kl) as [w|] eqn:E; [exact (keyword_search_word _ _ E) | reflexivity].
Qed.

(** ** Line numbers only matter to the exception *)

Lemma make_toc_entry_num (t : Tocsic) (l : string) (n m : nat) (kl : option string) (t' : Tocsic) :
  make_toc_entry t l n kl = Ok t' -> make_toc_entry t l m kl = Ok t'.
Proof. unfold make_toc_entry. destruct (head_search l); [exact id | discriminate]. Qed.

Lemma body_step_num (bs : BodyState) (ll : string) (t : Tocsic) (l : string) (n m : nat) r :
  body_step bs ll t l n = Ok r -> body_step bs ll t l m = Ok r.
Proof.
  unfold body_step. destruct bs.
  - destruct (startswith l "<a"); [exact id|]. destruct (startswith l "#"); [|exact id].
    destruct (make_toc_entry t l n None) eqn:E; [|discriminate].
    now rewrite (make_toc_entry_num _ _ _ m _ _ E).
  - destruct (startswith l "<a"); [exact id|]. destruct (startswith l "#"); [|exact id].
    destruct (make_toc_entry t l n (Some ll)) eqn:E; [|discriminate].
    now rewrite (make_toc_entry_num _ _ _ m _ _ E).
  - exact id.
Qed.

Lemma body_run_num (bs : BodyState) (ll : string) (t : Tocsic) (n m : nat) (ls : list string) r :
  body_run bs ll t n ls = Ok r -> body_run bs ll t m ls = Ok r.
Proof.
  revert bs ll t n m. induction ls as [|l ls IH]; intros bs ll t n m; cbn [body_run]; [exact id|].
  destruct (body_step bs ll t l (S n)) as [[[bs1 ll1] t1]|] eqn:E; [|discriminate].
  rewrite (body_step_num _ _ _ _ _ (S m) _ E). apply IH.
Qed.

Lemma step_next_state (bs : BodyState) (ll : string) (t : Tocsic) (l : string) (n : nat)
    (bs' : BodyState) (ll' : string) (t' : Tocsic) :
  body_step bs ll t l n = Ok (bs', ll', t') -> bs' = next_state bs l.
Proof. unfold body_step, next_state. intros H. destruct bs; repeat case_match; congruence. Qed.

Lemma process_body_run (t : Tocsic) (r : FileReader) (t' : Tocsic) :
  process_body t r = Ok t' -> exists n bs ll, body_run BODY "" t n (reader_rest r) = Ok (bs, ll, t').
Proof.
  unfold process_body, next, reader_rest. destruct (repeat r).
  - cbn [line_num iter].
    destruct (body_step BODY "" t (last_line r) (line_num r)) as [[[bs ll] t1]|] eqn:E; [|discriminate].
    unfold body_loop. destruct (body_run bs ll t1 (line_num r) (iter r)) as [[[bs' ll'] t'']|] eqn:E2;
      [|discriminate].
    intros [= <-]. exists (line_num r), bs', ll'. cbn [body_run].
    rewrite (body_step_num _ _ _ _ _ (S (line_num r)) _ E). exact (body_run_num _ _ _ _ _ _ _ E2).
  - destruct (iter r) as [|l it]; cbn [line_num iter].
    + intros [= <-]. exists 0, BODY, "". reflexivity.
    + unfold body_loop. cbn [body_run].
      destruct (body_step BODY "" t l (S (line_num r))) as [[[bs ll] t1]|] eqn:E1; [|discriminate].
      destruct (body_run bs ll t1 (S (line_num r)) it) as [[[bs' ll'] t'']|] eqn:E2; [|discriminate].
      intros [= <-]. exists (line_num r), bs', ll'. rewrite E1. exact E2.
Qed.

(** ** The scan of the output, against the scan of the input *)

(** A header line that the first scan turns into the pieces [anchor_line x]
    and [h]: the second scan reads the anchor line as a pending anchor tag
    and gives the header the same entry. *)
Lemma rerun_header (bs2 : BodyState) (ll2 : string) (t2 : Tocsic) (n2 : nat) (h : string)
    (k : nat) (name x : string) :
  bs2 = BODY \/ bs2 = FOUND_LINK -> startswith h "#" = true -> head_search h = Some (k, name) ->
  all_chars is_word_or_dash x = true ->
  exists t2m, body_run bs2 ll2 t2 n2 [anchor_line x; h] = Ok (BODY, anchor_line x, t2m) /\
    toc_info t2m = toc_info t2 ++ [mkEntry (k - 1) name x].
Proof.
  intros Hbs Hh Hp Hx. cbn [body_run].
  assert (exists t2a, body_step bs2 ll2 t2 (anchor_line x) (S n2) = Ok (FOUND_LINK, anchor_line x, t2a)
                      /\ toc_info t2a = toc_info t2) as (t2a & Ha & Hta).
  { destruct Hbs as [->| ->]; eexists; split; reflexivity. }
  rewrite Ha. rewrite (found_link_header_step t2a (anchor_line x) h (S (S n2)) k name
                         (anchor_line_prefix x) Hh Hp).
  rewrite (keyword_anchor_line x Hx). eexists. split; [reflexivity|]. cbn [toc_info]. now rewrite Hta.
Qed.

Lemma fence_while_pending_cons (bs : BodyState) (l : string) (ls : list string) :
  fence_while_pending bs (l :: ls) = false ->
  (bs = FOUND_LINK -> startswith l fence = false) /\ fence_while_pending (next_state bs l) ls = false.
Proof.
  cbn [fence_while_pending]. destruct bs; intros H.
  - split; [discriminate | exact H].
  - apply orb_false_iff in H as [H1 H2]. split; [intros _; exact H1 | exact H2].
  - split; [discriminate | exact H].
Qed.

Lemma rerun_step (bs1 : BodyState) (ll1 : string) (t1 : Tocsic) (n1 : nat) (l : string)
    (bs1m : BodyState) (ll1m : string) (t1m : Tocsic)
    (bs2 : BodyState) (ll2 : string) (t2 : Tocsic) (n2 : nat) :
  sim_state bs1 bs2 = true -> (bs1 = FOUND_LINK -> startswith l fence = false) ->
  body_step bs1 ll1 t1 l n1 = Ok (bs1m, ll1m, t1m) ->
  exists p d bs2m ll2m t2m, body t1m = body t1 ++ p /\ toc_info t1m = toc_info t1 ++ d /\
    body_run bs2 ll2 t2 n2 p = Ok (bs2m, ll2m, t2m) /\ toc_info t2m = toc_info t2 ++ d /\
    sim_state bs1m bs2m = true.
Proof.
  intros Hsim Hfence H.
  (* a header line: the pieces are its anchor line and the line *)
  assert (forall kl, startswith l "#" = true -> bs2 <> IN_CODE_BLOCK ->
            forall t1', make_toc_entry t1 l n1 kl = Ok t1' ->
            exists p d bs2m ll2m t2m,
              body (add_body (add_body t1' (anchor_line (last_link t1'))) l) = body t1 ++ p /\
              toc_info (add_body (add_body t1' (anchor_line (last_link t1'))) l) = toc_info t1 ++ d /\
              body_run bs2 ll2 t2 n2 p = Ok (bs2m, ll2m, t2m) /\ toc_info t2m = toc_info t2 ++ d /\
              sim_state BODY bs2m = true) as Hhdr.
  { intros kl Hh Hbs2 t1' E.
    destruct (make_toc_entry_ok _ _ _ _ _ E) as (k & name & x & Hp & Hti & Hb & Hx).
    destruct (rerun_header bs2 ll2 t2 n2 l k name x) as (t2m & Hrun & Ht2);
      [destruct bs2; auto; contradiction | exact Hh | exact Hp | exact Hx|].
    exists [anchor_line x; l], [mkEntry (k - 1) name x], BODY, (anchor_line x), t2m.
    unfold add_body, last_link. cbn [body toc_info]. rewrite Hti, last_snoc, Hb, <- app_assoc.
    cbn [link app]. auto. }
  destruct bs1; unfold body_step in H.
  - destruct bs2; try discriminate.
    destruct (startswith l "<a") eqn:Ha.
    + injection H as <- <- <-. exists [], [], BODY, ll2, t2. rewrite !app_nil_r. auto.
    + destruct (startswith l "#") eqn:Hh.
      * destruct (make_toc_entry t1 l n1 None) as [t1'|] eqn:E; [|discriminate].
        injection H as <- <- <-. exact (Hhdr None eq_refl ltac:(discriminate) t1' E).
      * exists [l], []. unfold add_body in *. cbn [body_run]. unfold body_step.
        rewrite Ha, Hh. destruct (startswith l fence); injection H as <- <- <-;
          do 3 eexists; cbn [body toc_info]; rewrite ?app_nil_r; repeat split; reflexivity.
  - assert (startswith l fence = false) as Hf by now apply Hfence.
    destruct (startswith l "<a") eqn:Ha.
    + injection H as <- <- <-. exists [l], []. cbn [body_run]. unfold body_step.
      destruct bs2; try discriminate; rewrite Ha; do 3 eexists; cbn [body toc_info add_body];
        rewrite ?app_nil_r; repeat split; reflexivity.
    + destruct (startswith l "#") eqn:Hh.
      * destruct (make_toc_entry t1 l n1 (Some ll1)) as [t1'|] eqn:E; [|discriminate].
        injection H as <- <- <-. apply (Hhdr (Some ll1) eq_refl); [destruct bs2; discriminate | exact E].
      * assert (body t1m = body t1 ++ [l] /\ toc_info t1m = toc_info t1 /\ bs1m = FOUND_LINK)
          as (Hb1 & Ht1 & ->).
        { destruct (negb (String.eqb (strip l) "")); injection H as <- <- <-; auto. }
        exists [l], []. rewrite Hb1, Ht1, !app_nil_r. cbn [body_run]. unfold body_step.
        destruct bs2; try discriminate; rewrite Ha, Hh; [rewrite Hf | destruct (negb (String.eqb (strip l) ""))];
          do 3 eexists; repeat split; reflexivity.
  - destruct bs2; try discriminate. exists [l], []. cbn [body_run]. unfold body_step.
    destruct (startswith l fence); injection H as <- <- <-; do 3 eexists; cbn [body toc_info add_body];
      rewrite ?app_nil_r; repeat split; reflexivity.
Qed.

(** ** The written file, read back *)

Lemma all_chars_srev (p : ascii -> bool) (s : string) : all_chars p (srev s) = all_chars p s.
Proof.
  induction s as [|c s IH]; cbn [srev all_chars]; [reflexivity|].
  rewrite all_chars_app, IH. cbn [all_chars]. now rewrite andb_true_r, andb_comm.
Qed.

Lemma all_chars_lstrip (p q : ascii -> bool) (s : string) :
  all_chars p s = true -> all_chars p (lstrip_by q s) = true.
Proof.
  induction s as [|c s IH]; cbn [lstrip_by all_chars]; [reflexivity|].
  intros H. destruct (q c); [apply IH; apply andb_true_iff in H; tauto | exact H].
Qed.

Lemma nl_last_tail (c : ascii) (s : string) : nl_last (String c s) = true -> nl_last s = true.
Proof.
  cbn [nl_last]. destruct (Ascii.eqb c newline); [|exact id].
  destruct (String.eqb_spec s "") as [->|]; [reflexivity | discriminate].
Qed.

Lemma nl_last_lstrip (q : ascii -> bool) (s : string) : nl_last s = true -> nl_last (lstrip_by q s) = true.
Proof.
  induction s as [|c s IH]; cbn [lstrip_by]; [exact id|].
  intros H. destruct (q c); [exact (IH (nl_last_tail c s H)) | exact H].
Qed.

Lemma nl_last_shape (s : string) :
  nl_last s = true -> exists a, no_nl a = true /\ (s = a \/ s = a +:+ nl).
Proof.
  induction s as [|c s IH]; intros H; [exists ""; auto|].
  cbn [nl_last] in H. destruct (Ascii.eqb_spec c newline) as [->|Hc].
  - destruct (String.eqb_spec s "") as [->|]; [|discriminate]. exists "". auto.
  - destruct (IH H) as (a & Ha & [->| ->]); exists (String c a);
      (split; [unfold no_nl; cbn [all_chars]; destruct (Ascii.eqb_spec c newline); [contradiction | exact Ha]|]);
      auto.
Qed.

Lemma no_nl_nl_last (a : string) : no_nl a = true -> nl_last a = true.
Proof.
  unfold no_nl. induction a as [|c a IH]; cbn [all_chars nl_last]; [reflexivity|].
  destruct (Ascii.eqb c newline); [discriminate | exact IH].
Qed.

Lemma complete_line (a : string) : no_nl a = true -> nl_last (a +:+ nl) = true /\ ends_nl (a +:+ nl) = true.
Proof.
  unfold no_nl. induction a as [|c a IH]; cbn [all_chars]; [split; reflexivity|].
  destruct (Ascii.eqb c newline) eqn:E; [discriminate|]. intros H. destruct (IH H) as [H1 H2].
  cbn [String.append nl_last ends_nl]. rewrite E. split; [exact H1|].
  destruct (a +:+ nl) eqn:Ea; [destruct a; discriminate | exact H2].
Qed.

Lemma complete_shape (l : string) :
  nl_last l = true -> ends_nl l = true -> exists a, no_nl a = true /\ l = a +:+ nl.
Proof.
  intros H1 H2. destruct (nl_last_shape l H1) as (a & Ha & [->| ->]); [|eauto].
  exfalso. clear H1. revert H2. unfold no_nl in Ha. induction a as [|c a IH]; [discriminate|].
  cbn [all_chars] in Ha. apply andb_true_iff in Ha as [Hc Ha].
  destruct a as [|c' a']; cbn [ends_nl].
  - destruct (Ascii.eqb c newline); discriminate.
  - exact (IH Ha).
Qed.

Lemma file_lines_acc_app (acc a r : string) :
  no_nl a = true -> file_lines_acc acc (a +:+ r) = file_lines_acc (srev a +:+ acc) r.
Proof.
  unfold no_nl. revert acc. induction a as [|c a IH]; intros acc Ha; [reflexivity|].
  cbn [all_chars] in Ha. apply andb_true_iff in Ha as [Hc Ha].
  cbn [String.append file_lines_acc]. destruct (Ascii.eqb c newline); [discriminate|].
  rewrite (IH _ Ha). cbn [srev]. now rewrite sapp_assoc.
Qed.

Lemma lines_ok_cons_complete (a : string) (ls : list string) :
  no_nl a = true -> lines_ok ls = true -> lines_ok ((a +:+ nl) :: ls) = true.
Proof.
  intros Ha Hls. destruct (complete_line a Ha) as [H1 H2]. destruct ls as [|l ls].
  - cbn [lines_ok]. rewrite H1, andb_true_r. destruct a; reflexivity.
  - change (lines_ok ((a +:+ nl) :: l :: ls)) with (nl_last (a +:+ nl) && ends_nl (a +:+ nl) && lines_ok (l :: ls)).
    now rewrite H1, H2, Hls.
Qed.

Lemma write_file_lines (ls : list string) : lines_ok ls = true -> file_lines (write_lines ls) = ls.
Proof.
  unfold file_lines. induction ls as [|l ls IH]; [reflexivity|].
  destruct ls as [|l' ls'].
  - cbn [lines_ok write_lines]. intros H. apply andb_true_iff in H as [Hne H].
    rewrite sapp_nil_r. destruct (nl_last_shape l H) as (a & Ha & [->| ->]).
    + rewrite <- (sapp_nil_r a) at 1. rewrite file_lines_acc_app by exact Ha.
      rewrite sapp_nil_r. cbn [file_lines_acc].
      destruct (String.eqb_spec (srev a) "") as [E|_].
      * apply srev_empty in E. subst a. discriminate.
      * now rewrite srev_involutive.
    + rewrite file_lines_acc_app by exact Ha. rewrite sapp_nil_r. unfold nl. cbn [file_lines_acc].
      change (Ascii.eqb newline newline) with true. cbv iota. cbn [srev String.eqb].
      now rewrite srev_involutive.
  - intros H. change (lines_ok (l :: l' :: ls')) with (nl_last l && ends_nl l && lines_ok (l' :: ls')) in H.
    apply andb_true_iff in H as [H H3]. apply andb_true_iff in H as [H1 H2].
    destruct (complete_shape l H1 H2) as (a & Ha & ->).
    cbn [write_lines]. rewrite sapp_assoc, file_lines_acc_app by exact Ha.
    rewrite sapp_nil_r. unfold nl. cbn [String.append file_lines_acc].
    change (Ascii.eqb newline newline) with true. cbv iota. cbn [srev].
    rewrite srev_involutive. f_equal. exact (IH H3).
Qed.

Lemma no_nl_cons (c : ascii) (s : string) :
  no_nl (String c s) = negb (Ascii.eqb c newline) && no_nl s.
Proof. reflexivity. Qed.

Lemma lines_ok_file_lines (s : string) : lines_ok (file_lines s) = true.
Proof.
  unfold file_lines. cut (forall acc, no_nl acc = true -> lines_ok (file_lines_acc acc s) = true).
  { intros H. now apply H. }
  induction s as [|c s IH]; intros acc Hacc; cbn [file_lines_acc].
  - destruct (String.eqb_spec acc "") as [->|Hne]; [reflexivity|].
    cbn [lines_ok]. apply andb_true_iff. split.
    + destruct (String.eqb_spec (srev acc) "") as [E|]; [|reflexivity].
      apply srev_empty in E. contradiction.
    + apply no_nl_nl_last. unfold no_nl. now rewrite all_chars_srev.
  - destruct (Ascii.eqb_spec c newline) as [->|Hc].
    + cbn [srev]. apply lines_ok_cons_complete; [unfold no_nl; now rewrite all_chars_srev | now apply IH].
    + apply IH. rewrite no_nl_cons, Hacc. destruct (Ascii.eqb_spec c newline); [contradiction | reflexivity].
Qed.

Lemma lines_ok_tail (l : string) (ls : list string) : lines_ok (l :: ls) = true -> lines_ok ls = true.
Proof.
  destruct ls as [|l' ls]; [reflexivity|].
  change (lines_ok (l :: l' :: ls)) with (nl_last l && ends_nl l && lines_ok (l' :: ls)).
  intros H. apply andb_true_iff in H. tauto.
Qed.

Lemma lines_ok_app_r (pre ls : list string) : lines_ok (pre ++ ls) = true -> lines_ok ls = true.
Proof. induction pre as [|l pre IH]; [exact id|]. intros H. apply IH. exact (lines_ok_tail _ _ H). Qed.

Lemma lines_ok_nl_last (ls : list string) : lines_ok ls = true -> Forall (fun l => nl_last l = true) ls.
Proof.
  induction ls as [|l ls IH]; intros H; [constructor|]. constructor.
  - destruct ls as [|l' ls]; cbn [lines_ok] in H.
    + apply andb_true_iff in H. tauto.
    + change (lines_ok (l :: l' :: ls)) with (nl_last l && ends_nl l && lines_ok (l' :: ls)) in H.
      apply andb_true_iff in H as [H _]. apply andb_true_iff in H. tauto.
  - exact (IH (lines_ok_tail _ _ H)).
Qed.

Lemma lines_ok_head (l l' : string) (ls : list string) :
  lines_ok (l :: l' :: ls) = true -> exists a, no_nl a = true /\ l = a +:+ nl.
Proof.
  change (lines_ok (l :: l' :: ls)) with (nl_last l && ends_nl l && lines_ok (l' :: ls)).
  intros H. apply andb_true_iff in H as [H _]. apply andb_true_iff in H as [H1 H2].
  exact (complete_shape l H1 H2).
Qed.

Lemma lines_ok_app (pre ls : list string) :
  Forall (fun l => exists a, no_nl a = true /\ l = a +:+ nl) pre -> lines_ok ls = true ->
  lines_ok (pre ++ ls) = true.
Proof.
  induction 1 as [|l pre (a & Ha & ->) _ IH]; [exact id|].
  intros H. cbn [app]. apply lines_ok_cons_complete; [exact Ha | exact (IH H)].
Qed.

Lemma nl_last_split_hashes (s : string) : nl_last s = true -> nl_last (snd (split_hashes s)) = true.
Proof.
  induction s as [|c s IH]; cbn [split_hashes]; [exact id|].
  intros H. destruct (Ascii.eqb c "#"); [|exact H].
  destruct (split_hashes s) as [k r] eqn:E. cbn [snd] in *. exact (IH (nl_last_tail c s H)).
Qed.

Lemma strip_no_nl (r : string) : nl_last r = true -> no_nl (strip r) = true.
Proof.
  intros H. unfold strip, strip_by.
  destruct (nl_last_shape _ (nl_last_lstrip is_space r H)) as (a & Ha & [E|E]); rewrite E;
    unfold no_nl; rewrite all_chars_srev.
  - apply all_chars_lstrip. now rewrite all_chars_srev.
  - rewrite srev_app. cbn [srev nl String.append lstrip_by]. change (is_space newline) with true. cbv iota.
    apply all_chars_lstrip. now rewrite all_chars_srev.
Qed.

Lemma head_search_name (l : string) (k : nat) (name : string) :
  nl_last l = true -> head_search l = Some (k, name) -> no_nl name = true.
Proof.
  induction l as [|c l IH]; cbn [head_search]; [discriminate|].
  intros Hl. destruct (Ascii.eqb c "#"); [|exact (IH (nl_last_tail c l Hl))].
  unfold head_match_at. pose proof (nl_last_split_hashes _ Hl) as Hr.
  destruct (split_hashes (String c l)) as [k' r]. cbn [snd] in Hr.
  destruct (negb (String.eqb (strip r) "")).
  - intros [= _ <-]. exact (strip_no_nl r Hr).
  - destruct (2 <=? k')%nat; [intros [= _ <-]; reflexivity | discriminate].
Qed.

Lemma word_or_dash_no_nl (x : string) : all_chars is_word_or_dash x = true -> no_nl x = true.
Proof.
  apply all_chars_impl. intros c H. destruct (Ascii.eqb_spec c newline) as [->|]; [discriminate | reflexivity].
Qed.

Lemma indent_no_nl (k : nat) : no_nl (indent k) = true.
Proof. induction k as [|k IH]; [reflexivity|]. cbn [indent]. unfold no_nl in *. now rewrite all_chars_app, IH. Qed.

Lemma toc_line_complete (e : toc_entry) :
  no_nl (header_name e) = true -> no_nl (link e) = true ->
  exists a, no_nl a = true /\ toc_line e = a +:+ nl.
Proof.
  intros Hn Hl. exists (indent (level e) +:+ "1. [" +:+ header_name e +:+ "](#" +:+ link e +:+ ")").
  split.
  - unfold no_nl in *. rewrite !all_chars_app, Hn, Hl, indent_no_nl. reflexivity.
  - unfold toc_line. now rewrite !sapp_assoc.
Qed.

Lemma anchor_line_complete (x : string) :
  all_chars is_word_or_dash x = true -> exists a, no_nl a = true /\ anchor_line x = a +:+ nl.
Proof.
  intros Hx. exists ("<a id=" +:+ String dquote x +:+ tag_close). split.
  - unfold no_nl. rewrite !all_chars_app. cbn [all_chars]. fold (no_nl x).
    now rewrite (word_or_dash_no_nl x Hx).
  - unfold anchor_line. now rewrite !sapp_assoc.
Qed.

Lemma toc_loop_rest (last : string) (xs : list string) (n : nat) :
  exists pre, xs = pre ++ reader_rest (toc_loop last xs n).
Proof.
  revert last n. induction xs as [|x xs IH]; intros last n; cbn [toc_loop]; [exists []; reflexivity|].
  destruct (String.eqb (strip x) ""); [exists []; reflexivity|].
  destruct (IH x (S n)) as [pre E]. exists (x :: pre). cbn [app]. now rewrite <- E.
Qed.

(** The lines the body loop reads are the last lines of the file. *)
Lemma body_input_suffix (f : list string) : exists pre, f = pre ++ body_input f.
Proof.
  unfold body_input. destruct (blank_prefix_split f) as [Hb|(blanks & l & xs & -> & Hb & Hl)].
  - destruct f as [|b bs]; [exists []; reflexivity|].
    inversion Hb as [|? ? Hb1 Hbs]; subst.
    unfold process_start, next, new_reader. cbn [repeat iter line_num last_line]. rewrite Hb1.
    cbn [String.eqb]. destruct (start_loop_blank b bs 1 Hbs) as [last' ->].
    exists (b :: bs). cbn [reader_rest repeat iter]. now rewrite app_nil_r.
  - rewrite (process_start_nonblank blanks l xs Hb Hl).
    destruct (String.eqb (strip l) toc_marker).
    + unfold process_toc, next, back. cbn [repeat last_line iter line_num].
      destruct (String.eqb_spec (strip l) "") as [E|_]; [contradiction|].
      destruct (toc_loop_rest l xs (length blanks + 1)) as [pre E]. exists (blanks ++ l :: pre).
      rewrite <- app_assoc. cbn [app]. now rewrite <- E.
    + exists blanks. reflexivity.
Qed.

(** What one step of the scan appends to the body and to the TOC. *)
Lemma step_pieces (bs : BodyState) (ll : string) (t : Tocsic) (l : string) (n : nat)
    (bs' : BodyState) (ll' : string) (t' : Tocsic) :
  body_step bs ll t l n = Ok (bs', ll', t') ->
  (exists p, body t' = body t ++ p /\
     (p = [] \/ p = [l] \/ exists x, all_chars is_word_or_dash x = true /\ p = [anchor_line x; l])) /\
  (exists d, toc_info t' = toc_info t ++ d /\
     Forall (fun e => (exists k, head_search l = Some (k, header_name e)) /\
                      all_chars is_word_or_dash (link e) = true) d).
Proof.
  assert (forall kl t1, make_toc_entry t l n kl = Ok t1 ->
            (exists p, body (add_body (add_body t1 (anchor_line (last_link t1))) l) = body t ++ p /\
               (p = [] \/ p = [l] \/ exists x, all_chars is_word_or_dash x = true /\ p = [anchor_line x; l])) /\
            (exists d, toc_info (add_body (add_body t1 (anchor_line (last_link t1))) l) = toc_info t ++ d /\
               Forall (fun e => (exists k, head_search l = Some (k, header_name e)) /\
                                all_chars is_word_or_dash (link e) = true) d)) as Hhdr.
  { intros kl t1 E. destruct (make_toc_entry_ok _ _ _ _ _ E) as (k & name & x & Hp & Hti & Hb & Hx).
    unfold add_body, last_link. cbn [body toc_info]. rewrite Hti, last_snoc, Hb, <- app_assoc.
    cbn [link app]. split.
    - exists [anchor_line x; l]. split; [reflexivity|]. right; right; eauto.
    - exists [mkEntry (k - 1) name x]. split; [reflexivity|]. repeat constructor; cbn; eauto. }
  assert (forall t1, (body t1 = body t \/ body t1 = body t ++ [l]) -> toc_info t1 = toc_info t ->
            (exists p, body t1 = body t ++ p /\
               (p = [] \/ p = [l] \/ exists x, all_chars is_word_or_dash x = true /\ p = [anchor_line x; l])) /\
            (exists d, toc_info t1 = toc_info t ++ d /\
               Forall (fun e => (exists k, head_search l = Some (k, header_name e)) /\
                                all_chars is_word_or_dash (link e) = true) d)) as Hplain.
  { intros t1 Hb Ht. split; [|exists []; rewrite app_nil_r; split; [exact Ht | constructor]].
    destruct Hb as [Hb|Hb]; [exists [] | exists [l]]; rewrite ?app_nil_r; auto. }
  unfold body_step. intros H. destruct bs.
  - destruct (startswith l "<a"); [injection H as _ _ <-; apply Hplain; auto|].
    destruct (startswith l "#").
    + destruct (make_toc_entry t l n None) as [t1|] eqn:E; [|discriminate].
      injection H as _ _ <-. exact (Hhdr _ _ E).
    + destruct (startswith l fence); injection H as _ _ <-; apply Hplain; auto.
  - destruct (startswith l "<a"); [injection H as _ _ <-; apply Hplain; auto|].
    destruct (startswith l "#").
    + destruct (make_toc_entry t l n (Some ll)) as [t1|] eqn:E; [|discriminate].
      injection H as _ _ <-. exact (Hhdr _ _ E).
    + destruct (negb (String.eqb (strip l) "")); injection H as _ _ <-; apply Hplain; auto.
  - injection H as _ _ <-. apply Hplain; auto.
Qed.

(** The lines of the body written for the input lines [ls], as the file
    holds them, and the TOC entries made for them. *)
Lemma rerun_sim (ls : list string) :
  forall (bs1 : BodyState) (ll1 : string) (t1 : Tocsic) (n1 : nat)
         (bs2 : BodyState) (ll2 : string) (t2 : Tocsic) (n2 : nat)
         (bs1' : BodyState) (ll1' : string) (t1' : Tocsic),
  sim_state bs1 bs2 = true -> fence_while_pending bs1 ls = false -> lines_ok ls = true ->
  body_run bs1 ll1 t1 n1 ls = Ok (bs1', ll1', t1') ->
  exists p d bs2' ll2' t2', body t1' = body t1 ++ p /\ toc_info t1' = toc_info t1 ++ d /\
    body_run bs2 ll2 t2 n2 p = Ok (bs2', ll2', t2') /\ toc_info t2' = toc_info t2 ++ d /\
    lines_ok p = true /\ Forall (fun e => no_nl (header_name e) = true /\ no_nl (link e) = true) d.
Proof.
  induction ls as [|l ls IH]; intros bs1 ll1 t1 n1 bs2 ll2 t2 n2 bs1' ll1' t1' Hsim Hf Hok H.
  - injection H as <- <- <-. exists [], [], bs2, ll2, t2. rewrite !app_nil_r. repeat split; auto; constructor.
  - cbn [body_run] in H. apply fence_while_pending_cons in Hf as [Hf1 Hf2].
    pose proof (lines_ok_nl_last _ Hok) as Hnl. inversion Hnl as [|? ? Hl _]; subst.
    destruct (body_step bs1 ll1 t1 l (S n1)) as [[[bsm llm] tm]|] eqn:E; [|discriminate].
    pose proof (step_next_state _ _ _ _ _ _ _ _ E) as ->.
    destruct (step_pieces _ _ _ _ _ _ _ _ E) as [(p0 & Hb0 & Hshape) (d0 & Ht0 & Hd0)].
    destruct (rerun_step _ _ _ _ _ _ _ _ bs2 ll2 t2 n2 Hsim Hf1 E)
      as (p & d & bs2m & ll2m & t2m & Hb & Ht & Hrun & Ht2 & Hsim').
    rewrite Hb0 in Hb. apply app_inv_head in Hb as <-.
    rewrite Ht0 in Ht. apply app_inv_head in Ht as <-.
    destruct (IH _ _ _ _ bs2m ll2m t2m (n2 + length p0) _ _ _ Hsim' Hf2 (lines_ok_tail _ _ Hok) H)
      as (p' & d' & bs2' & ll2' & t2' & Hb' & Ht' & Hrun' & Ht2' & Hok' & Hd').
    exists (p0 ++ p'), (d0 ++ d'), bs2', ll2', t2'.
    split; [now rewrite Hb', Hb0, app_assoc|]. split; [now rewrite Ht', Ht0, app_assoc|].
    split; [now rewrite body_run_app, Hrun|]. split; [now rewrite Ht2', Ht2, app_assoc|].
    split.
    + destruct ls as [|l' ls].
      * cbn [body_run] in H. injection H as _ _ <-.
        assert (p' = []) as ->.
        { apply (f_equal length) in Hb'. rewrite length_app in Hb'. destruct p'; [reflexivity|].
          cbn [length] in Hb'. lia. }
        rewrite app_nil_r.
        destruct Hshape as [->|[->|(x & Hx & ->)]]; [reflexivity | exact Hok|].
        destruct (anchor_line_complete x Hx) as (a & Ha & ->). now apply lines_ok_cons_complete.
      * destruct (lines_ok_head _ _ _ Hok) as (a & Ha & El).
        apply lines_ok_app; [|exact Hok'].
        destruct Hshape as [->|[->|(x & Hx & ->)]]; repeat constructor; eauto.
        exact (anchor_line_complete x Hx).
    + apply Forall_app. split; [|exact Hd'].
      eapply Forall_impl; [exact Hd0|]. intros e [(k & Hk) Hw]. split.
      * exact (head_search_name l k (header_name e) Hl Hk).
      * exact (word_or_dash_no_nl _ Hw).
Qed.

Lemma strip_marker_line : strip (toc_marker +:+ nl) = toc_marker.
Proof. vm_compute. reflexivity. Qed.

Lemma toc_line_nonblank (e : toc_entry) : strip (toc_line e) <> "".
Proof.
  unfold strip. rewrite strip_by_empty. unfold toc_line.
  apply lstrip_by_app_nonempty. reflexivity.
Qed.

Lemma generate_md_split (t : Tocsic) :
  generate_md t = [] ++ (toc_marker +:+ nl) :: (map toc_line (toc_info t) ++ nl :: body t).
Proof. reflexivity. Qed.

(** The scan of a generated file: the TOC marker line and the TOC lines are
    taken for an old TOC block, and the body loop reads the blank separator
    line and the body. *)
Lemma rescan_generated (t : Tocsic) :
  scan_document (generate_md t) = body_loop BODY "" init_tocsic (length (make_toc t)) (nl :: body t).
Proof.
  rewrite generate_md_split.
  rewrite scan_document_nonblank by (constructor || (rewrite strip_marker_line; discriminate)).
  rewrite strip_marker_line, String.eqb_refl.
  destruct (toc_loop_skip (toc_marker +:+ nl) (map toc_line (toc_info t)) (nl :: body t) (length (@nil string) + 1))
    as [last' ->].
  { induction (toc_info t) as [|e es IH]; cbn [map]; constructor; [apply toc_line_nonblank | exact IH]. }
  cbn [toc_loop]. change (String.eqb (strip nl) "") with true. cbv iota.
  rewrite process_body_back. cbn [length]. reflexivity.
Qed.

(** C7: when the scan of the lines of a file [s] succeeds with [t1] and no
    line starting with a fence is read while an anchor tag is pending, then
    reading back the file written for it gives exactly the written lines
    [generate_md t1]; the scan of that file takes its first line for the TOC
    marker, drops the old TOC block (the second scan is the body loop on the
    blank separator line and the body), succeeds, and makes the same TOC
    entries, hence the same TOC lines. *)
Theorem rerun_toc_equivalent (s : string) (t1 : Tocsic)
    (H1 : scan_document (file_lines s) = Ok t1)
    (Hf : fence_while_pending BODY (body_input (file_lines s)) = false) :
  file_lines (write_lines (generate_md t1)) = generate_md t1 /\
  has_leading_toc (generate_md t1) = true /\
  scan_document (generate_md t1) =
    body_loop BODY "" init_tocsic (length (make_toc t1)) (nl :: body t1) /\
  exists t2, scan_document (file_lines (write_lines (generate_md t1))) = Ok t2 /\
    toc_info t2 = toc_info t1 /\ make_toc t2 = make_toc t1.
Proof.
  assert (Hok : lines_ok (body_input (file_lines s)) = true).
  { destruct (body_input_suffix (file_lines s)) as [pre E].
    apply (lines_ok_app_r pre). rewrite <- E. apply lines_ok_file_lines. }
  unfold scan_document in H1. unfold body_input in Hf, Hok.
  destruct (process_start (new_reader (file_lines s))) as [has r1].
  apply process_body_run in H1 as (n & bs & ll & Hrun).
  destruct (rerun_sim _ BODY "" init_tocsic n BODY "" (add_body init_tocsic nl)
              (S (length (make_toc t1))) bs ll t1 eq_refl Hf Hok Hrun)
    as (p & d & bs2 & ll2 & t2 & Hb & Ht & Hrun2 & Ht2 & Hokp & Hd).
  cbn [body toc_info init_tocsic app] in Hb, Ht, Ht2.
  assert (Hw : file_lines (write_lines (generate_md t1)) = generate_md t1).
  { apply write_file_lines. rewrite generate_md_split. cbn [app].
    replace (nl :: body t1) with ([nl] ++ body t1) by reflexivity.
    rewrite app_assoc, app_comm_cons.
    apply lines_ok_app; [|rewrite Hb; exact Hokp].
    constructor; [exists toc_marker; split; reflexivity|].
    apply Forall_app. split.
    - rewrite Ht. clear -Hd.
      induction Hd as [|e d' [Hn Hl] _ IH]; cbn [map]; constructor;
        [exact (toc_line_complete e Hn Hl) | exact IH].
    - constructor; [exists ""; split; reflexivity | constructor]. }
  rewrite Hw. split; [reflexivity|].
  split; [|split; [apply rescan_generated|]].
  - unfold has_leading_toc. rewrite generate_md_split.
    rewrite process_start_nonblank by (constructor || (rewrite strip_marker_line; discriminate)).
    cbn [fst]. now rewrite strip_marker_line, String.eqb_refl.
  - rewrite rescan_generated.
    exists t2. unfold body_loop. cbn [body_run].
    change (body_step BODY "" init_tocsic nl (S (length (make_toc t1))))
      with (@Ok (BodyState * string * Tocsic) (BODY, "", add_body init_tocsic nl)).
    rewrite Hb, Hrun2. split; [reflexivity|].
    rewrite Ht2, Ht. split; [reflexivity|]. unfold make_toc. now rewrite Ht2, Ht.
Qed.

Lemma rerun_toc_equivalent_witness :
  scan_document (file_lines (anchor_line "x" +:+ "# A" +:+ nl +:+ "text" +:+ nl +:+ "# A" +:+ nl +:+ "## A" +:+ nl)) =
    Ok (match scan_document (file_lines (anchor_line "x" +:+ "# A" +:+ nl +:+ "text" +:+ nl +:+ "# A" +:+ nl +:+ "## A" +:+ nl)) with
        | Ok t => t | Raise _ => init_tocsic end) /\
  fence_while_pending BODY (body_input (file_lines (anchor_line "x" +:+ "# A" +:+ nl +:+ "text" +:+ nl +:+ "# A" +:+ nl +:+ "## A" +:+ nl))) = false /\
  exists t2, scan_document (file_lines (write_lines (generate_md
      (match scan_document (file_lines (anchor_line "x" +:+ "# A" +:+ nl +:+ "text" +:+ nl +:+ "# A" +:+ nl +:+ "## A" +:+ nl)) with
       | Ok t => t | Raise _ => init_tocsic end)))) = Ok t2 /\
    toc_info t2 = [mkEntry 0 "A" "x"; mkEntry 0 "A" "a"; mkEntry 1 "A" "a_1"].
Proof.
  assert (H1 : scan_document (file_lines (anchor_line "x" +:+ "# A" +:+ nl +:+ "text" +:+ nl +:+ "# A" +:+ nl +:+ "## A" +:+ nl)) =
    Ok (match scan_document (file_lines (anchor_line "x" +:+ "# A" +:+ nl +:+ "text" +:+ nl +:+ "# A" +:+ nl +:+ "## A" +:+ nl)) with
        | Ok t => t | Raise _ => init_tocsic end)) by (vm_compute; reflexivity).
  assert (Hf : fence_while_pending BODY (body_input (file_lines (anchor_line "x" +:+ "# A" +:+ nl +:+ "text" +:+ nl +:+ "# A" +:+ nl +:+ "## A" +:+ nl))) = false)
    by (vm_compute; reflexivity).
  split; [exact H1|]. split; [exact Hf|].
  destruct (rerun_toc_equivalent _ _ H1 Hf) as (_ & _ & _ & t2 & E & Ht & _).
  exists t2. split; [exact E|]. rewrite Ht. vm_compute. reflexivity.
Defined.

(** ** The line reader *)

(** [FileReader]: after [next] returns [l], [back] makes the following
    [next] return [l] again with the same reader, so with the same line
    number; [next] delivers the lines of the reader in order and counts
    each line the first time it delivers it. *)
Theorem reader_next_back (r r1 : FileReader) (l : string) (H : next r = Some (l, r1)) :
  next (back r1) = Some (l, r1) /\ reader_rest r = l :: reader_rest r1 /\
  repeat r1 = false /\ line_num r1 = (if repeat r then line_num r else S (line_num r)).
Proof.
  revert H. unfold next, back, reader_rest. destruct (repeat r) eqn:Hr.
  - intros [= <- <-]. cbn [repeat last_line iter line_num]. repeat split.
  - destruct (iter r) as [|x it]; [discriminate|]. intros [= <- <-].
    cbn [repeat last_line iter line_num]. repeat split.
Qed.

Lemma reader_next_back_witness :
  next (new_reader ["a" +:+ nl; "b" +:+ nl]) = Some ("a" +:+ nl, mkReader false ("a" +:+ nl) ["b" +:+ nl] 1) /\
  next (back (mkReader false ("a" +:+ nl) ["b" +:+ nl] 1)) = Some ("a" +:+ nl, mkReader false ("a" +:+ nl) ["b" +:+ nl] 1).
Proof.
  assert (H : next (new_reader ["a" +:+ nl; "b" +:+ nl]) = Some ("a" +:+ nl, mkReader false ("a" +:+ nl) ["b" +:+ nl] 1))
    by reflexivity.
  split; [exact H|]. exact (proj1 (reader_next_back _ _ _ H)).
Defined.

(** ** [is_user_sure] *)

Lemma user_sure_loop_invalid (answers : list string) :
  Forall (fun x => answer_valid x = false) answers ->
  user_sure_loop answers = (None, List.repeat please_type (length answers)).
Proof.
  induction 1 as [|x xs Hx _ IH]; [reflexivity|].
  unfold answer_valid, answer_yes in Hx. apply orb_false_iff in Hx as [Hx Hno].
  apply orb_false_iff in Hx as [Hyes Hn].
  cbn [user_sure_loop length List.repeat]. rewrite Hyes, Hn, Hno. cbn [orb]. now rewrite IH.
Qed.

(** [is_user_sure] prints its message, then one reminder per answer that
    is none of y, yes, n, no (in any case), and returns whether the first
    answer that is one of them is y or yes. *)
Theorem is_user_sure_first_valid (message a : string) (pre rest : list string)
    (Hpre : Forall (fun x => answer_valid x = false) pre) (Ha : answer_valid a = true) :
  is_user_sure message (pre ++ a :: rest) =
    (Some (answer_yes a), message :: List.repeat please_type (length pre)).
Proof.
  unfold is_user_sure.
  enough (user_sure_loop (pre ++ a :: rest) = (Some (answer_yes a), List.repeat please_type (length pre)))
    as -> by reflexivity.
  induction Hpre as [|x xs Hx _ IH].
  - cbn [app user_sure_loop length List.repeat]. unfold answer_valid, answer_yes in *.
    destruct (String.eqb (lower a) "y" || String.eqb (lower a) "yes"); [reflexivity|].
    cbn [orb] in Ha. now rewrite Ha.
  - unfold answer_valid, answer_yes in Hx. apply orb_false_iff in Hx as [Hx Hno].
    apply orb_false_iff in Hx as [Hyes Hn].
    cbn [app user_sure_loop length List.repeat]. rewrite Hyes, Hn, Hno. cbn [orb]. now rewrite IH.
Qed.

Lemma is_user_sure_first_valid_witness :
  Forall (fun x => answer_valid x = false) ["maybe"; ""] /\ answer_valid "YES" = true /\
  is_user_sure overwrite_question (["maybe"; ""] ++ "YES" :: ["n"]) =
    (Some (answer_yes "YES"), overwrite_question :: List.repeat please_type (length ["maybe"; ""])).
Proof.
  assert (Hp : Forall (fun x => answer_valid x = false) ["maybe"; ""]) by (repeat constructor).
  split; [exact Hp|]. split; [reflexivity|].
  apply is_user_sure_first_valid; [exact Hp | reflexivity].
Defined.

(** When no answer is y, yes, n or no, [is_user_sure] prints its message
    and one reminder per answer, and then [input()] raises [EOFError]. *)
Theorem is_user_sure_eof (message : string) (answers : list string)
    (Hans : Forall (fun x => answer_valid x = false) answers) :
  is_user_sure message answers = (None, message :: List.repeat please_type (length answers)).
Proof. unfold is_user_sure. now rewrite (user_sure_loop_invalid answers Hans). Qed.

Lemma is_user_sure_eof_witness :
  Forall (fun x => answer_valid x = false) ["ok"] /\
  is_user_sure overwrite_question ["ok"] = (None, overwrite_question :: List.repeat please_type (length ["ok"])).
Proof.
  assert (H : Forall (fun x => answer_valid x = false) ["ok"]) by (repeat constructor).
  split; [exact H | exact (is_user_sure_eof _ _ H)].
Defined.

(** ** The default output name and the script *)

Lemma slen_srev (s : string) : String.length (srev s) = String.length s.
Proof.
  induction s as [|c s IH]; [reflexivity|]. cbn [srev]. rewrite slen_app, IH. cbn. lia.
Qed.

Lemma contains_char_split (c : ascii) (s : string) :
  contains_char c s = true -> exists a b, contains_char c a = false /\ s = a +:+ String c b.
Proof.
  induction s as [|x s IH]; cbn [contains_char]; [discriminate|].
  destruct (Ascii.eqb c x) eqn:E; cbn [orb].
  - apply Ascii.eqb_eq in E as <-. intros _. exists "", s. split; reflexivity.
  - intros H. destruct (IH H) as (a & b & Ha & ->). exists (String x a), b.
    cbn [contains_char String.append]. now rewrite E.
Qed.

Lemma make_output_name_length (f : string) :
  String.length (make_output_name f) = String.length f + 4.
Proof.
  unfold make_output_name. destruct (contains_char "." f) eqn:E; cbn [negb].
  - rewrite <- contains_char_srev in E. destruct (contains_char_split _ _ E) as (a & b & Ha & Hs).
    rewrite Hs, (split_dot_once_app a b Ha). cbn [join].
    rewrite slen_srev, !slen_app. rewrite <- (slen_srev f), Hs, slen_app. cbn. lia.
  - rewrite slen_app. reflexivity.
Qed.

(** [make_output_name] adds exactly four characters to the file name, so
    the default output file is never the input file. *)
Theorem make_output_name_longer (f : string) :
  String.length (make_output_name f) = String.length f + 4 /\ make_output_name f <> f.
Proof.
  split; [apply make_output_name_length|]. intros E.
  pose proof (make_output_name_length f) as L. rewrite E in L. lia.
Qed.

(** The script, when the input path names a file that opens and no output
    path is given: no question is asked (the answers are not read), and
    the output is written to [make_output_name] of the input path, which is
    not the input path. *)
Theorem default_output_written (f contents : string) (answers : list string) (t : Tocsic)
    (Hs : scan_document (file_lines contents) = Ok t) :
  tocsic_main f None true true contents answers = RunWrote (make_output_name f) (write_lines (generate_md t)) /\
  make_output_name f <> f.
Proof.
  split.
  - unfold tocsic_main, tocsic_init, check_arguments, add_toc. cbn [negb is_valid output_file ca_input_file
      ca_output_file ca_is_overwrite]. now rewrite Hs.
  - intros E. pose proof (make_output_name_length f) as L. rewrite E in L. lia.
Qed.

Lemma default_output_written_witness :
  scan_document (file_lines ("# A" +:+ nl)) =
    Ok (mkTocsic [mkEntry 0 "A" "a"] [anchor_line "a"; "# A" +:+ nl] (<["a" := 1]> ∅) []) /\
  tocsic_main "doc.md" None true true ("# A" +:+ nl) [] =
    RunWrote (make_output_name "doc.md")
      (write_lines (generate_md (mkTocsic [mkEntry 0 "A" "a"] [anchor_line "a"; "# A" +:+ nl] (<["a" := 1]> ∅) [])))
  /\ make_output_name "doc.md" <> "doc.md".
Proof.
  assert (Hs : scan_document (file_lines ("# A" +:+ nl)) =
    Ok (mkTocsic [mkEntry 0 "A" "a"] [anchor_line "a"; "# A" +:+ nl] (<["a" := 1]> ∅) []))
    by (vm_compute; reflexivity).
  split; [exact Hs | exact (default_output_written "doc.md" _ [] _ Hs)].
Defined.

(** The script, when the output path given is the input path: a "no" to the
    question leaves [is_valid] false in [check_arguments], but [__init__]
    then sets it to true, so [add_toc] still runs and overwrites the input
    file with its output. *)
Theorem overwrite_refusal_ignored (f contents : string) (answers : list string) (t : Tocsic)
    (Hno : fst (is_user_sure overwrite_question answers) = Some false)
    (Hs : scan_document (file_lines contents) = Ok t) :
  check_arguments f (Some f) true answers = InitOk (mkChecked f f true (Some false)) /\
  tocsic_main f (Some f) true true contents answers = RunWrote f (write_lines (generate_md t)).
Proof.
  assert (Hc : check_arguments f (Some f) true answers = InitOk (mkChecked f f true (Some false))).
  { unfold check_arguments. cbn [negb]. now rewrite String.eqb_refl, Hno. }
  split; [exact Hc|].
  unfold tocsic_main, tocsic_init. rewrite Hc. cbn [negb is_valid output_file ca_input_file ca_output_file ca_is_overwrite].
  unfold add_toc. now rewrite Hs.
Qed.

Lemma overwrite_refusal_ignored_witness :
  fst (is_user_sure overwrite_question ["sure?"; "N"]) = Some false /\
  scan_document (file_lines ("# A" +:+ nl)) =
    Ok (mkTocsic [mkEntry 0 "A" "a"] [anchor_line "a"; "# A" +:+ nl] (<["a" := 1]> ∅) []) /\
  tocsic_main "doc.md" (Some "doc.md") true true ("# A" +:+ nl) ["sure?"; "N"] =
    RunWrote "doc.md"
      (write_lines (generate_md (mkTocsic [mkEntry 0 "A" "a"] [anchor_line "a"; "# A" +:+ nl] (<["a" := 1]> ∅) []))).
Proof.
  assert (Hno : fst (is_user_sure overwrite_question ["sure?"; "N"]) = Some false) by reflexivity.
  assert (Hs : scan_document (file_lines ("# A" +:+ nl)) =
    Ok (mkTocsic [mkEntry 0 "A" "a"] [anchor_line "a"; "# A" +:+ nl] (<["a" := 1]> ∅) []))
    by (vm_compute; reflexivity).
  split; [exact Hno|]. split; [exact Hs|].
  exact (proj2 (overwrite_refusal_ignored "doc.md" _ _ _ Hno Hs)).
Defined.

(** ** One step of the body loop, by cases *)

Lemma step_cases (bs : BodyState) (ll : string) (t : Tocsic) (l : string) (n : nat)
    (bs' : BodyState) (ll' : string) (t' : Tocsic) :
  body_step bs ll t l n = Ok (bs', ll', t') ->
  (is_header_read bs l = false /\ toc_info t' = toc_info t /\
     body t' = body t ++ (if startswith l "<a" then match bs with BODY => [] | _ => [l] end else [l])) \/
  (exists k name x, is_header_read bs l = true /\ head_search l = Some (k, name) /\
     toc_info t' = toc_info t ++ [mkEntry (k - 1) name x] /\ body t' = body t ++ [anchor_line x; l]).
Proof.
  assert (Hhdr : forall kl t1, make_toc_entry t l n kl = Ok t1 ->
    exists k name x, head_search l = Some (k, name) /\
      toc_info (add_body (add_body t1 (anchor_line (last_link t1))) l) = toc_info t ++ [mkEntry (k - 1) name x] /\
      body (add_body (add_body t1 (anchor_line (last_link t1))) l) = body t ++ [anchor_line x; l]).
  { intros kl t1 E. destruct (make_toc_entry_ok _ _ _ _ _ E) as (k & name & x & Hp & Hti & Hb & _).
    exists k, name, x. unfold add_body, last_link. cbn [body toc_info]. rewrite Hti, last_snoc, Hb.
    split; [exact Hp|]. split; [reflexivity|]. now rewrite <- app_assoc. }
  intros H. unfold body_step in H. unfold is_header_read. destruct bs.
  - destruct (startswith l "<a") eqn:Ha.
    + injection H as _ _ <-. left. rewrite app_nil_r. auto.
    + cbn [negb andb]. destruct (startswith l "#") eqn:Hh.
      * destruct (make_toc_entry t l n None) as [t1|] eqn:E; [|discriminate].
        injection H as _ _ <-. right. destruct (Hhdr _ _ E) as (k & name & x & ?); eauto.
      * left. split; [reflexivity|].
        destruct (startswith l fence); injection H as _ _ <-; auto.
  - destruct (startswith l "<a") eqn:Ha.
    + injection H as _ _ <-. left. auto.
    + cbn [negb andb]. destruct (startswith l "#") eqn:Hh.
      * destruct (make_toc_entry t l n (Some ll)) as [t1|] eqn:E; [|discriminate].
        injection H as _ _ <-. right. destruct (Hhdr _ _ E) as (k & name & x & ?); eauto.
      * left. split; [reflexivity|].
        destruct (negb (String.eqb (strip l) "")); injection H as _ _ <-; auto.
  - injection H as _ _ <-. left. destruct (startswith l "<a"); auto.
Qed.

Lemma scan_body_run (f : list string) (t : Tocsic) :
  scan_document f = Ok t -> exists n bs ll, body_run BODY "" init_tocsic n (body_input f) = Ok (bs, ll, t).
Proof.
  unfold scan_document, body_input. destruct (process_start (new_reader f)) as [has r1].
  apply process_body_run.
Qed.

Lemma run_headers (ls : list string) :
  forall bs ll t n bs' ll' t', body_run bs ll t n ls = Ok (bs', ll', t') ->
  map level_title (toc_info t') = map level_title (toc_info t) ++ map header_of (headers_read bs ls).
Proof.
  induction ls as [|l ls IH]; intros bs ll t n bs' ll' t' H; cbn [body_run] in H.
  - injection H as <- <- <-. cbn. now rewrite app_nil_r.
  - destruct (body_step bs ll t l (S n)) as [[[bs1 ll1] t1]|] eqn:E; [|discriminate].
    rewrite (IH _ _ _ _ _ _ _ H). pose proof (step_next_state _ _ _ _ _ _ _ _ E) as ->.
    cbn [headers_read].
    destruct (step_cases _ _ _ _ _ _ _ _ E) as [(Hr & Ht & _)|(k & name & x & Hr & Hp & Ht & _)];
      rewrite Hr, Ht; [reflexivity|].
    rewrite map_app, <- app_assoc. cbn [map].
    replace (header_of l) with (k - 1, name) by (unfold header_of; now rewrite Hp). reflexivity.
Qed.

(** [process_body]: the TOC entries are, in order, one per line that
    starts with ['#'] (and not with ["<a"]) and is read outside a code
    block, with the level and title the header pattern gives it. *)
Theorem toc_entries_are_headers_read (f : list string) (t : Tocsic) (H : scan_document f = Ok t) :
  map level_title (toc_info t) = map header_of (headers_read BODY (body_input f)).
Proof.
  destruct (scan_body_run f t H) as (n & bs & ll & Hr). now rewrite (run_headers _ _ _ _ _ _ _ _ Hr).
Qed.

Lemma toc_entries_are_headers_read_witness :
  scan_document ["# A" +:+ nl; fence +:+ nl; "# B" +:+ nl; fence +:+ nl; "## C" +:+ nl] =
    Ok (match scan_document ["# A" +:+ nl; fence +:+ nl; "# B" +:+ nl; fence +:+ nl; "## C" +:+ nl] with
        | Ok t => t | Raise _ => init_tocsic end) /\
  map level_title (toc_info (match scan_document ["# A" +:+ nl; fence +:+ nl; "# B" +:+ nl; fence +:+ nl; "## C" +:+ nl] with
        | Ok t => t | Raise _ => init_tocsic end)) = [(0, "A"); (1, "C")].
Proof.
  assert (H : scan_document ["# A" +:+ nl; fence +:+ nl; "# B" +:+ nl; fence +:+ nl; "## C" +:+ nl] =
    Ok (match scan_document ["# A" +:+ nl; fence +:+ nl; "# B" +:+ nl; fence +:+ nl; "## C" +:+ nl] with
        | Ok t => t | Raise _ => init_tocsic end)) by (vm_compute; reflexivity).
  split; [exact H|]. etransitivity; [exact (toc_entries_are_headers_read _ _ H)|]. vm_compute. reflexivity.
Defined.

Lemma entry_anchored_app (b p : list string) (e : toc_entry) :
  entry_anchored b e -> entry_anchored (b ++ p) e.
Proof.
  intros (pre & l & post & k & -> & Hp & Hl). exists pre, l, (post ++ p), k.
  split; [|split; assumption]. now rewrite <- app_assoc.
Qed.

Lemma run_anchored (ls : list string) :
  forall bs ll t n bs' ll' t', body_run bs ll t n ls = Ok (bs', ll', t') ->
  Forall (entry_anchored (body t)) (toc_info t) -> Forall (entry_anchored (body t')) (toc_info t').
Proof.
  induction ls as [|l ls IH]; intros bs ll t n bs' ll' t' H Ha; cbn [body_run] in H.
  - now injection H as <- <- <-.
  - destruct (body_step bs ll t l (S n)) as [[[bs1 ll1] t1]|] eqn:E; [|discriminate].
    apply (IH _ _ _ _ _ _ _ H).
    destruct (step_cases _ _ _ _ _ _ _ _ E) as [(_ & Ht & Hb)|(k & name & x & _ & Hp & Ht & Hb)];
      rewrite Ht, Hb.
    + eapply Forall_impl; [exact Ha|]. intros e. apply entry_anchored_app.
    + apply Forall_app. split.
      * eapply Forall_impl; [exact Ha|]. intros e. apply entry_anchored_app.
      * constructor; [|constructor]. exists (body t), l, [], k. cbn [link header_name level]. auto.
Qed.

(** [process_body]: the anchor of every TOC entry is written to the body
    as the line [<a id="anchor"></a>], right before a header line with the
    entry's level and title. *)
Theorem toc_entries_anchored (f : list string) (t : Tocsic) (H : scan_document f = Ok t) :
  Forall (entry_anchored (body t)) (toc_info t).
Proof.
  destruct (scan_body_run f t H) as (n & bs & ll & Hr).
  apply (run_anchored _ _ _ _ _ _ _ _ Hr). constructor.
Qed.

Lemma toc_entries_anchored_witness :
  scan_document [anchor_line "x"; "# A" +:+ nl; "## B" +:+ nl] =
    Ok (match scan_document [anchor_line "x"; "# A" +:+ nl; "## B" +:+ nl] with
        | Ok t => t | Raise _ => init_tocsic end) /\
  Forall (entry_anchored (body (match scan_document [anchor_line "x"; "# A" +:+ nl; "## B" +:+ nl] with
        | Ok t => t | Raise _ => init_tocsic end)))
    (toc_info (match scan_document [anchor_line "x"; "# A" +:+ nl; "## B" +:+ nl] with
        | Ok t => t | Raise _ => init_tocsic end)).
Proof.
  assert (H : scan_document [anchor_line "x"; "# A" +:+ nl; "## B" +:+ nl] =
    Ok (match scan_document [anchor_line "x"; "# A" +:+ nl; "## B" +:+ nl] with
        | Ok t => t | Raise _ => init_tocsic end)) by (vm_compute; reflexivity).
  split; [exact H | exact (toc_entries_anchored _ _ H)].
Defined.

Lemma run_filter_other (ls : list string) :
  forall bs ll t n bs' ll' t', body_run bs ll t n ls = Ok (bs', ll', t') ->
  List.filter (fun x => negb (startswith x "<a")) (body t') =
  List.filter (fun x => negb (startswith x "<a")) (body t) ++ List.filter (fun x => negb (startswith x "<a")) ls.
Proof.
  induction ls as [|l ls IH]; intros bs ll t n bs' ll' t' H; cbn [body_run] in H.
  - injection H as <- <- <-. cbn. now rewrite app_nil_r.
  - destruct (body_step bs ll t l (S n)) as [[[bs1 ll1] t1]|] eqn:E; [|discriminate].
    rewrite (IH _ _ _ _ _ _ _ H). cbn [List.filter].
    destruct (step_cases _ _ _ _ _ _ _ _ E) as [(_ & _ & Hb)|(k & name & x & Hr & _ & _ & Hb)];
      rewrite Hb, List.filter_app, <- app_assoc.
    + destruct (startswith l "<a") eqn:Ea; [destruct bs|]; cbn [List.filter app negb]; rewrite ?Ea;
        reflexivity.
    + unfold is_header_read in Hr. cbn [List.filter app]. rewrite anchor_line_prefix.
      destruct bs; [| |discriminate]; destruct (startswith l "<a"); try discriminate; reflexivity.
Qed.

(** [process_body]: every line it reads that does not start with ["<a"]
    is written to the body unchanged and in order; the other lines of the
    body all start with ["<a"] (anchor tags kept or inserted). *)
Theorem body_keeps_other_lines (f : list string) (t : Tocsic) (H : scan_document f = Ok t) :
  List.filter (fun x => negb (startswith x "<a")) (body t) =
  List.filter (fun x => negb (startswith x "<a")) (body_input f).
Proof.
  destruct (scan_body_run f t H) as (n & bs & ll & Hr).
  now rewrite (run_filter_other _ _ _ _ _ _ _ _ Hr).
Qed.

Lemma body_keeps_other_lines_witness :
  scan_document ["<abbr>" +:+ nl; "# A" +:+ nl; "text" +:+ nl] =
    Ok (match scan_document ["<abbr>" +:+ nl; "# A" +:+ nl; "text" +:+ nl] with
        | Ok t => t | Raise _ => init_tocsic end) /\
  List.filter (fun x => negb (startswith x "<a"))
    (body (match scan_document ["<abbr>" +:+ nl; "# A" +:+ nl; "text" +:+ nl] with
           | Ok t => t | Raise _ => init_tocsic end)) = ["# A" +:+ nl; "text" +:+ nl].
Proof.
  assert (H : scan_document ["<abbr>" +:+ nl; "# A" +:+ nl; "text" +:+ nl] =
    Ok (match scan_document ["<abbr>" +:+ nl; "# A" +:+ nl; "text" +:+ nl] with
        | Ok t => t | Raise _ => init_tocsic end)) by (vm_compute; reflexivity).
  split; [exact H|]. etransitivity; [exact (body_keeps_other_lines _ _ H)|]. vm_compute. reflexivity.
Defined.

(** ** Line numbers of the error *)

Lemma make_toc_entry_raise (t : Tocsic) (l : string) (n : nat) (kl : option string) (e : TocsicException) :
  make_toc_entry t l n kl = Raise e -> e = NotAHeader n /\ head_search l = None.
Proof.
  unfold make_toc_entry. destruct (head_search l) as [[k name]|].
  - destruct kl as [kl|]; [destruct (negb (String.eqb kl ""))|];
      [|destruct (header_to_link (header_dict t) name)..]; discriminate.
  - intros [= <-]. auto.
Qed.

Lemma step_raise (bs : BodyState) (ll : string) (t : Tocsic) (l : string) (n : nat) (e : TocsicException) :
  body_step bs ll t l n = Raise e -> e = NotAHeader n /\ startswith l "#" = true /\ head_search l = None.
Proof.
  unfold body_step. destruct bs.
  - destruct (startswith l "<a"); [discriminate|]. destruct (startswith l "#") eqn:Hh.
    + destruct (make_toc_entry t l n None) eqn:E; [discriminate|]. intros [= <-].
      destruct (make_toc_entry_raise _ _ _ _ _ E). auto.
    + destruct (startswith l fence); discriminate.
  - destruct (startswith l "<a"); [discriminate|]. destruct (startswith l "#") eqn:Hh.
    + destruct (make_toc_entry t l n (Some ll)) eqn:E; [discriminate|]. intros [= <-].
      destruct (make_toc_entry_raise _ _ _ _ _ E). auto.
    + destruct (negb (String.eqb (strip l) "")); discriminate.
  - discriminate.
Qed.

Lemma run_raise (ls : list string) :
  forall bs ll t n k, body_run bs ll t n ls = Raise (NotAHeader k) ->
  exists pre l rest, ls = pre ++ l :: rest /\ k = S (n + length pre) /\
    startswith l "#" = true /\ head_search l = None.
Proof.
  induction ls as [|l ls IH]; intros bs ll t n k H; cbn [body_run] in H; [discriminate|].
  destruct (body_step bs ll t l (S n)) as [[[bs1 ll1] t1]|e] eqn:E.
  - destruct (IH _ _ _ _ _ H) as (pre & l' & rest & -> & Hk & Hh & Hp).
    exists (l :: pre), l', rest. cbn [app length]. split; [reflexivity|]. split; [lia|]. auto.
  - injection H as ->. destruct (step_raise _ _ _ _ _ _ E) as ([= ->] & Hh & Hp).
    exists [], l, ls. cbn. auto.
Qed.

Lemma next_at (f : list string) (r r1 : FileReader) (l : string) :
  reader_at f r -> next r = Some (l, r1) ->
  repeat r1 = false /\ last_line r1 = l /\ exists pre, f = pre ++ l :: iter r1 /\ S (length pre) = line_num r1.
Proof.
  intros [Hrep (pre & Hf & Hl)]. unfold next. unfold reader_rest, reader_pos in *.
  destruct (repeat r) eqn:Hr.
  - intros [= <- <-]. cbn [repeat last_line iter line_num]. split; [reflexivity|]. split; [reflexivity|].
    exists pre. split; [exact Hf|]. specialize (Hrep eq_refl). lia.
  - destruct (iter r) as [|x it]; [discriminate|]. intros [= <- <-].
    cbn [repeat last_line iter line_num]. split; [reflexivity|]. split; [reflexivity|].
    exists pre. split; [exact Hf | lia].
Qed.

Lemma reader_at_fresh (f pre : list string) (last : string) (it : list string) (n : nat) :
  f = pre ++ it -> length pre = n -> reader_at f (mkReader false last it n).
Proof. intros Hf Hl. split; [discriminate|]. exists pre. auto. Qed.

Lemma reader_at_back (f pre : list string) (l : string) (it : list string) (n : nat) :
  f = pre ++ l :: it -> S (length pre) = n -> reader_at f (back (mkReader false l it n)).
Proof.
  intros Hf Hl. split; [cbn; lia|]. exists pre. unfold reader_rest, reader_pos. cbn. split; [exact Hf | lia].
Qed.

Lemma start_loop_at (it : list string) :
  forall last n pre, length pre = n -> reader_at (pre ++ it) (snd (start_loop last it n)).
Proof.
  induction it as [|l it IH]; intros last n pre Hl; cbn [start_loop].
  - apply (reader_at_fresh _ pre last); [reflexivity | exact Hl].
  - destruct (String.eqb (strip l) "").
    + replace (pre ++ l :: it) with ((pre ++ [l]) ++ it) by now rewrite <- app_assoc.
      apply IH. rewrite length_app, Hl. cbn. lia.
    + cbn [snd]. apply (reader_at_back _ pre); [reflexivity | lia].
Qed.

Lemma toc_loop_at (it : list string) :
  forall last n pre, length pre = n -> reader_at (pre ++ it) (toc_loop last it n).
Proof.
  induction it as [|l it IH]; intros last n pre Hl; cbn [toc_loop].
  - apply (reader_at_fresh _ pre last); [reflexivity | exact Hl].
  - destruct (String.eqb (strip l) "").
    + apply (reader_at_back _ pre); [reflexivity | lia].
    + replace (pre ++ l :: it) with ((pre ++ [l]) ++ it) by now rewrite <- app_assoc.
      apply IH. rewrite length_app, Hl. cbn. lia.
Qed.

Lemma process_start_at (f : list string) : reader_at f (snd (process_start (new_reader f))).
Proof.
  unfold process_start, next, new_reader. cbn [repeat iter line_num last_line].
  destruct f as [|l it].
  - cbn [snd]. apply (reader_at_fresh _ [] ""); reflexivity.
  - cbn [line_num iter last_line]. destruct (String.eqb (strip l) "").
    + apply (start_loop_at it l 1 [l]). reflexivity.
    + cbn [snd]. apply (reader_at_back _ []); reflexivity.
Qed.

Lemma process_toc_at (f : list string) (r : FileReader) : reader_at f r -> reader_at f (process_toc r).
Proof.
  intros Hr. unfold process_toc. destruct (next r) as [[l r1]|] eqn:En; [|exact Hr].
  destruct (next_at _ _ _ _ Hr En) as (Hrep & Hll & pre & Hf & Hl).
  destruct r1 as [rep1 last1 it1 n1]. cbn [repeat last_line iter line_num] in *. subst rep1 last1.
  destruct (String.eqb (strip l) "").
  - exact (reader_at_back _ _ _ _ _ Hf Hl).
  - rewrite Hf. replace (pre ++ l :: it1) with ((pre ++ [l]) ++ it1) by now rewrite <- app_assoc.
    apply toc_loop_at. rewrite length_app. cbn. lia.
Qed.

Lemma process_body_raise (f : list string) (t : Tocsic) (r : FileReader) (k : nat) :
  reader_at f r -> process_body t r = Raise (NotAHeader k) ->
  exists pre l rest, f = pre ++ l :: rest /\ k = S (length pre) /\
    startswith l "#" = true /\ head_search l = None.
Proof.
  intros Hr. unfold process_body. destruct (next r) as [[l r1]|] eqn:En; [|discriminate].
  destruct (next_at _ _ _ _ Hr En) as (_ & _ & pre & Hf & Hl).
  destruct (body_step BODY "" t l (line_num r1)) as [[[bs ll] t1]|e] eqn:E.
  - unfold body_loop. destruct (body_run bs ll t1 (line_num r1) (iter r1)) as [[[? ?] ?]|e] eqn:E2;
      [discriminate|]. intros [= ->].
    destruct (run_raise _ _ _ _ _ _ E2) as (pre2 & l' & rest & Hit & Hk & Hh & Hp).
    exists (pre ++ l :: pre2), l', rest. split; [rewrite Hf, Hit, <- app_assoc; reflexivity|].
    rewrite length_app. cbn [length]. split; [lia|]. auto.
  - intros [= ->]. destruct (step_raise _ _ _ _ _ _ E) as ([= ->] & Hh & Hp).
    exists pre, l, (iter r1). auto.
Qed.

(** [make_toc_entry] within [add_toc]: when the scan raises the exception
    for line [k], the [k]-th line of the file (counting from 1, blank
    lines and lines of an old TOC block included) starts with ['#'] and
    the header pattern does not match it; the script then writes no
    output file. *)
Theorem scan_error_names_line (f : list string) (k : nat) (H : scan_document f = Raise (NotAHeader k)) :
  (exists pre l rest, f = pre ++ l :: rest /\ k = S (length pre) /\
     startswith l "#" = true /\ head_search l = None) /\
  (forall md_path output path_is_file can_open contents answers path text,
     file_lines contents = f ->
     tocsic_main md_path output path_is_file can_open contents answers <> RunWrote path text).
Proof.
  split.
  - revert H. unfold scan_document. pose proof (process_start_at f) as Hs.
    destruct (process_start (new_reader f)) as [has r1]. cbn [snd] in Hs.
    apply process_body_raise. destruct has; [apply process_toc_at|]; exact Hs.
  - intros md_path output path_is_file can_open contents answers path text Hc.
    unfold tocsic_main. destruct (tocsic_init md_path output path_is_file can_open answers) as [st| |];
      try discriminate. destruct (negb (is_valid st)); [discriminate|].
    unfold add_toc. rewrite Hc, H. discriminate.
Qed.

Lemma scan_error_names_line_witness :
  scan_document [nl; toc_marker +:+ nl; "1. [A](#a)" +:+ nl; nl; "text" +:+ nl; "#" +:+ nl] = Raise (NotAHeader 6) /\
  exists pre l rest, [nl; toc_marker +:+ nl; "1. [A](#a)" +:+ nl; nl; "text" +:+ nl; "#" +:+ nl] = pre ++ l :: rest /\
    6 = S (length pre) /\ startswith l "#" = true /\ head_search l = None.
Proof.
  assert (H : scan_document [nl; toc_marker +:+ nl; "1. [A](#a)" +:+ nl; nl; "text" +:+ nl; "#" +:+ nl] =
    Raise (NotAHeader 6)) by (vm_compute; reflexivity).
  split; [exact H | exact (proj1 (scan_error_names_line _ _ H))].
Defined.

(** ** Anchor tags *)

Lemma found_link_no_header_run (xs : list string) :
  forall ll t n, Forall (fun x => startswith x "#" = false) xs ->
  exists ll' t', body_run FOUND_LINK ll t n xs = Ok (FOUND_LINK, ll', t') /\
    body t' = body t ++ xs /\ toc_info t' = toc_info t /\ header_dict t' = header_dict t.
Proof.
  induction xs as [|x xs IH]; intros ll t n Hx.
  - exists ll, t. cbn. rewrite app_nil_r. auto.
  - inversion Hx as [|? ? Hx1 Hxs]; subst. cbn [body_run]. unfold body_step at 1. rewrite Hx1.
    assert (Hstep : forall ll1 t1, body t1 = body t ++ [x] -> toc_info t1 = toc_info t ->
              header_dict t1 = header_dict t ->
              exists ll' t', body_run FOUND_LINK ll1 t1 (S n) xs = Ok (FOUND_LINK, ll', t') /\
                body t' = body t ++ x :: xs /\ toc_info t' = toc_info t /\ header_dict t' = header_dict t).
    { intros ll1 t1 Hb Ht Hd. destruct (IH ll1 t1 (S n) Hxs) as (ll' & t' & Hr & Hb' & Ht' & Hd').
      exists ll', t'. rewrite Hb', Hb, Ht', Ht, Hd', Hd, <- app_assoc. auto. }
    destruct (startswith x "<a"); [apply Hstep; reflexivity|].
    destruct (negb (String.eqb (strip x) "")); apply Hstep; reflexivity.
Qed.

(** [process_body]: a line starting with ["<a"] read in the BODY state,
    after which no line starting with ['#'] comes before the end of the
    file, is lost: the body receives every later line (later tag lines
    included) but not that one, and no TOC entry is made. *)
Theorem pending_tag_without_header_lost (ll : string) (t : Tocsic) (n : nat) (a : string)
    (rest : list string) (Ha : startswith a "<a" = true)
    (Hrest : Forall (fun x => startswith x "#" = false) rest) :
  exists ll' t', body_run BODY ll t n (a :: rest) = Ok (FOUND_LINK, ll', t') /\
    body t' = body t ++ rest /\ toc_info t' = toc_info t.
Proof.
  cbn [body_run]. unfold body_step at 1. rewrite Ha.
  destruct (found_link_no_header_run rest a t (S n) Hrest) as (ll' & t' & Hr & Hb & Ht & _).
  exists ll', t'. auto.
Qed.

Lemma pending_tag_without_header_lost_witness :
  startswith (anchor_line "x") "<a" = true /\
  Forall (fun x => startswith x "#" = false) [anchor_line "y"; "text" +:+ nl] /\
  exists ll' t', body_run BODY "" init_tocsic 0 (anchor_line "x" :: [anchor_line "y"; "text" +:+ nl]) =
      Ok (FOUND_LINK, ll', t') /\
    body t' = body init_tocsic ++ [anchor_line "y"; "text" +:+ nl] /\ toc_info t' = toc_info init_tocsic.
Proof.
  assert (Ha : startswith (anchor_line "x") "<a" = true) by reflexivity.
  assert (Hr : Forall (fun x => startswith x "#" = false) [anchor_line "y"; "text" +:+ nl])
    by (repeat constructor).
  split; [exact Ha|]. split; [exact Hr|]. exact (pending_tag_without_header_lost "" init_tocsic 0 _ _ Ha Hr).
Defined.



(** ** Derived anchors *)

(** [header_to_link]: the anchor it returns consists of letters, digits
    and underscores only; it adds one to the count of the header's
    candidate in [header_dict] and leaves every other count as it was. *)
Theorem header_to_link_counts (d : gmap string nat) (h : string) :
  all_chars is_word (snd (header_to_link d h)) = true /\
  fst (header_to_link d h) !! link_candidate h = Some (S (default 0 (d !! link_candidate h))) /\
  (forall c, c <> link_candidate h -> fst (header_to_link d h) !! c = d !! c).
Proof.
  rewrite header_to_link_eq. cbn [fst snd]. split; [|split].
  - apply suffixed_word, all_chars_sfilter.
  - apply lookup_insert_eq.
  - intros c Hc. apply lookup_insert_ne. congruence.
Qed.

(** ** Edge cases of the script *)

(** [add_toc] on an empty file or a file of blank lines: [process_start]
    meets the end of the file, and the output is the TOC marker line and
    one blank line. *)
Theorem add_toc_blank_file (blanks : list string) (Hb : Forall (fun b => strip b = "") blanks) :
  add_toc blanks = Ok [toc_marker +:+ nl; nl].
Proof. unfold add_toc. now rewrite (scan_document_blank blanks Hb). Qed.

Lemma add_toc_blank_file_witness :
  Forall (fun b => strip b = "") [nl; "  " +:+ nl] /\ add_toc [nl; "  " +:+ nl] = Ok [toc_marker +:+ nl; nl].
Proof.
  assert (H : Forall (fun b => strip b = "") [nl; "  " +:+ nl]) by (repeat constructor).
  split; [exact H | exact (add_toc_blank_file _ H)].
Defined.

(** The script stops with a [TocsicException] before asking anything or
    reading the file when the input path is not an existing file, and,
    when no output path is given, when the input file cannot be opened;
    in both cases nothing is written. *)
Theorem tocsic_main_input_errors (f contents : string) (output : option string) (answers : list string) :
  tocsic_main f output false true contents answers = RunRaise (f +:+ " does not exist or is not a file") /\
  tocsic_main f output false false contents answers = RunRaise (f +:+ " does not exist or is not a file") /\
  tocsic_main f None true false contents answers = RunRaise ("Failed to open file " +:+ f).
Proof. split; [|split]; reflexivity. Qed.

(** ** Derived anchors of a whole document *)

Lemma blank_not_prefix (b : string) (c : ascii) (p : string) :
  is_space c = false -> strip b = "" -> startswith b (String c p) = false.
Proof.
  intros Hc. unfold strip. rewrite strip_by_empty. destruct b as [|c' b]; [reflexivity|].
  unfold startswith. cbn [String.prefix]. destruct (ascii_dec c c') as [<-|]; [|reflexivity].
  cbn [lstrip_by]. rewrite Hc. discriminate.
Qed.

Lemma blank_line_body (b : string) :
  strip b = "" -> startswith b "<a" = false /\ startswith b "#" = false /\ next_state BODY b = BODY.
Proof.
  intros Hb.
  assert (Ha : startswith b "<a" = false) by (apply blank_not_prefix; [reflexivity | exact Hb]).
  assert (Hh : startswith b "#" = false) by (apply blank_not_prefix; [reflexivity | exact Hb]).
  assert (Hf : startswith b fence = false) by (apply blank_not_prefix; [reflexivity | exact Hb]).
  split; [exact Ha|]. split; [exact Hh|]. unfold next_state. now rewrite Ha, Hh, Hf.
Qed.

Lemma outside_code_blanks (blanks r : list string) :
  Forall (fun b => strip b = "") blanks ->
  lines_outside_code BODY (blanks ++ r) = blanks ++ lines_outside_code BODY r.
Proof.
  induction 1 as [|b blanks Hb _ IH]; [reflexivity|].
  cbn [app lines_outside_code]. destruct (blank_line_body b Hb) as (_ & _ & ->). now rewrite IH.
Qed.

Lemma filter_hash_blanks (blanks r : list string) :
  Forall (fun b => strip b = "") blanks ->
  List.filter (fun l => startswith l "#") (blanks ++ r) = List.filter (fun l => startswith l "#") r.
Proof.
  induction 1 as [|b blanks Hb _ IH]; [reflexivity|].
  cbn [app List.filter]. destruct (blank_line_body b Hb) as (_ & -> & _). exact IH.
Qed.

Lemma headers_read_outside (ls : list string) :
  forall bs, bs <> FOUND_LINK ->
  Forall (fun l => startswith l "<a" = false) (lines_outside_code bs ls) ->
  headers_read bs ls = List.filter (fun l => startswith l "#") (lines_outside_code bs ls).
Proof.
  induction ls as [|l ls IH]; intros bs Hbs Hf; [reflexivity|].
  destruct bs; [|contradiction|]; cbn [headers_read lines_outside_code is_header_read] in *.
  - apply Forall_cons_iff in Hf as [Ha Hf']. rewrite Ha. cbn [negb andb List.filter].
    assert (Hn : next_state BODY l <> FOUND_LINK).
    { unfold next_state. rewrite Ha. simpl. repeat case_match; discriminate. }
    destruct (startswith l "#"); rewrite (IH _ Hn Hf'); reflexivity.
  - apply IH; [|exact Hf]. unfold next_state. case_match; discriminate.
Qed.

Lemma derived_run (ls : list string) :
  forall bs ll t n, bs <> FOUND_LINK ->
  Forall (fun l => startswith l "<a" = false /\ (startswith l "#" = true -> head_search l <> None))
    (lines_outside_code bs ls) ->
  link_inv t ->
  exists bs' t', body_run bs ll t n ls = Ok (bs', ll, t') /\ link_inv t'.
Proof.
  induction ls as [|l ls IH]; intros bs ll t n Hbs Hf Ht.
  - exists bs, t. split; [reflexivity | exact Ht].
  - destruct bs; [|contradiction|]; cbn [lines_outside_code body_run] in *.
    + apply Forall_cons_iff in Hf as [[Ha Hh] Hf']. unfold next_state in Hf'. rewrite Ha in Hf'.
      unfold body_step. rewrite Ha. cbv iota.
      destruct (startswith l "#") eqn:E.
      * destruct (head_search l) as [[k name]|] eqn:Hp; [|exfalso; now apply Hh].
        unfold make_toc_entry. rewrite Hp, header_to_link_eq. cbv beta iota.
        apply IH; [discriminate | exact Hf' | exact (link_inv_snoc t (k - 1) name _ _ Ht)].
      * destruct (startswith l fence); (apply IH; [discriminate | exact Hf' | exact Ht]).
    + unfold body_step. unfold next_state in Hf. destruct (startswith l fence);
        (apply IH; [discriminate | exact Hf | exact Ht]).
Qed.

(** C1: (a) when the first non-blank line of the document is not the TOC
    marker, no line read outside a code block starts with ["<a"], and
    every such line starting with ['#'] matches the header pattern, the
    scan succeeds; its TOC has one entry per line starting with ['#']
    outside the code blocks, in order, with that header's level and title;
    the anchor of each entry is the candidate derived from its title,
    suffixed with ["_n"] when [n] earlier entries have the same candidate;
    so entries with the same candidate have distinct anchors.  (b) When the
    first non-blank line is the TOC marker, it and the non-blank lines after
    it make no entry: the entries are those of the lines after that block. *)
Theorem derived_anchor_toc :
  (forall f : list string,
     has_leading_toc f = false ->
     Forall (fun l => startswith l "<a" = false /\ (startswith l "#" = true -> head_search l <> None))
       (lines_outside_code BODY f) ->
     exists t, scan_document f = Ok t /\
       map level_title (toc_info t) =
         map header_of (List.filter (fun l => startswith l "#") (lines_outside_code BODY f)) /\
       (forall j e, toc_info t !! j = Some e ->
          link e = suffixed (link_candidate (header_name e))
                     (candidate_count (link_candidate (header_name e)) (take j (toc_info t)))) /\
       (forall i j ei ej, i <> j -> toc_info t !! i = Some ei -> toc_info t !! j = Some ej ->
          link_candidate (header_name ei) = link_candidate (header_name ej) -> link ei <> link ej)) /\
  (forall (blanks : list string) (l : string) (toc rest : list string) (t : Tocsic),
     Forall (fun b => strip b = "") blanks -> strip l = toc_marker ->
     Forall (fun x => strip x <> "") toc ->
     (rest = [] \/ exists b r, rest = b :: r /\ strip b = "") ->
     scan_document (blanks ++ l :: toc ++ rest) = Ok t ->
     map level_title (toc_info t) = map header_of (headers_read BODY rest)).
Proof.
  split.
  - intros f Hs Hf.
    assert (Hend : forall t, link_inv t ->
      (forall j e, toc_info t !! j = Some e ->
         link e = suffixed (link_candidate (header_name e))
                    (candidate_count (link_candidate (header_name e)) (take j (toc_info t)))) /\
      (forall i j ei ej, i <> j -> toc_info t !! i = Some ei -> toc_info t !! j = Some ej ->
         link_candidate (header_name ei) = link_candidate (header_name ej) -> link ei <> link ej)).
    { intros t Hi. split; [exact (proj2 Hi)|]. intros i j ei ej. exact (link_inv_distinct t i j ei ej Hi). }
    destruct (blank_prefix_split f) as [Hb|(blanks & l & xs & -> & Hb & Hl)].
    + exists init_tocsic. split; [exact (scan_document_blank f Hb)|].
      split; [|exact (Hend _ link_inv_init)].
      pose proof (outside_code_blanks f [] Hb) as E1. cbn [lines_outside_code] in E1.
      rewrite !app_nil_r in E1. rewrite E1.
      pose proof (filter_hash_blanks f [] Hb) as E2. rewrite app_nil_r in E2. rewrite E2. reflexivity.
    + unfold has_leading_toc in Hs. rewrite (process_start_nonblank blanks l xs Hb Hl) in Hs.
      cbn [fst] in Hs.
      rewrite (outside_code_blanks blanks (l :: xs) Hb) in Hf |- *. apply Forall_app in Hf as [_ Hf].
      destruct (derived_run (l :: xs) BODY "" init_tocsic (length blanks) ltac:(discriminate) Hf
                  link_inv_init) as (bs' & t' & R & Hi).
      exists t'. split.
      { rewrite (scan_document_nonblank blanks l xs Hb Hl), Hs. unfold body_loop. now rewrite R. }
      split; [|exact (Hend t' Hi)].
      rewrite filter_hash_blanks by exact Hb.
      rewrite (run_headers _ _ _ _ _ _ _ _ R). cbn [toc_info init_tocsic map app].
      f_equal. apply headers_read_outside; [discriminate|].
      eapply Forall_impl; [exact Hf|]. intros x [Hx _]. exact Hx.
  - intros blanks l toc rest t Hb Hm Ht Hr H.
    assert (Hl : strip l <> "") by (rewrite Hm; unfold toc_marker; discriminate).
    rewrite (scan_document_nonblank blanks l (toc ++ rest) Hb Hl), Hm, String.eqb_refl in H.
    destruct (toc_loop_skip l toc rest (length blanks + 1) Ht) as [last' E]. rewrite E in H.
    destruct Hr as [->|(b & r & -> & Hb')].
    + cbn in H. injection H as <-. reflexivity.
    + cbn [toc_loop] in H. rewrite Hb' in H. cbn [String.eqb] in H. rewrite process_body_back in H.
      unfold body_loop in H.
      destruct (body_run BODY "" init_tocsic _ (b :: r)) as [[[bs' ll'] t']|] eqn:R; [|discriminate].
      injection H as <-. exact (run_headers _ _ _ _ _ _ _ _ R).
Qed.

Lemma derived_anchor_toc_witness :
  has_leading_toc ["# A" +:+ nl; fence +:+ nl; "<a" +:+ nl; "#" +:+ nl; fence +:+ nl; "# A" +:+ nl] = false /\
  Forall (fun l => startswith l "<a" = false /\ (startswith l "#" = true -> head_search l <> None))
    (lines_outside_code BODY ["# A" +:+ nl; fence +:+ nl; "<a" +:+ nl; "#" +:+ nl; fence +:+ nl; "# A" +:+ nl]) /\
  (exists t, scan_document ["# A" +:+ nl; fence +:+ nl; "<a" +:+ nl; "#" +:+ nl; fence +:+ nl; "# A" +:+ nl] = Ok t /\
     map link (toc_info t) = ["a"; "a_1"]) /\
  (match scan_document ([nl; toc_marker +:+ nl; "1. [A](#a)" +:+ nl] ++ [nl; "# B" +:+ nl]) with
   | Ok t => map level_title (toc_info t) = map header_of (headers_read BODY [nl; "# B" +:+ nl])
   | Raise _ => False
   end).
Proof.
  assert (Hs : has_leading_toc ["# A" +:+ nl; fence +:+ nl; "<a" +:+ nl; "#" +:+ nl; fence +:+ nl;
                                "# A" +:+ nl] = false) by (vm_compute; reflexivity).
  assert (Hf : Forall (fun l => startswith l "<a" = false /\ (startswith l "#" = true -> head_search l <> None))
    (lines_outside_code BODY ["# A" +:+ nl; fence +:+ nl; "<a" +:+ nl; "#" +:+ nl; fence +:+ nl; "# A" +:+ nl])).
  { vm_compute. repeat constructor; intros; discriminate. }
  split; [exact Hs|]. split; [exact Hf|]. split.
  - destruct (proj1 derived_anchor_toc _ Hs Hf) as (t & Hsc & _ & _ & _).
    exists t. split; [exact Hsc|]. vm_compute in Hsc. injection Hsc as <-. reflexivity.
  - destruct (scan_document ([nl; toc_marker +:+ nl; "1. [A](#a)" +:+ nl] ++ [nl; "# B" +:+ nl])) as [t|e] eqn:E.
    + apply (proj2 derived_anchor_toc [nl] (toc_marker +:+ nl) ["1. [A](#a)" +:+ nl] [nl; "# B" +:+ nl] t);
        [repeat constructor | vm_compute; reflexivity | repeat constructor; vm_compute; discriminate
        | right; eexists; eexists; split; reflexivity | exact E].
    + vm_compute in E. discriminate.
Defined.
